(** * update-agent-frontmatter: the header rewriter of the agent corpus

    A shallow embedding of [scripts/update-agent-frontmatter.py] and the
    properties of its parser, merger and serializer.

    Python values are modelled as follows.
    - A [str] is a list of Unicode code points ([N]).
    - A [dict] is an association list in insertion order, which is the
      order Python's [dict] iterates in; assigning to an existing key
      keeps the key's position.
    - The two module-level tables are passed to the functions that read
      them.
    - A file is opened in text mode.  [read_text] is what a read makes
      of the characters on disk (every line ending becomes a newline)
      and [write_text] is what a write puts on disk.  [update_agent_file]
      is the function from the text that was read on, up to the text it
      hands to the write; [update_agent_file_on_disk] is the whole
      function on the characters of the file.  The [content] that
      [update_agent_file] and [main_loop] take is the text as read,
      [main_loop_on_disk] takes the characters of the files.  A file is
      its sequence of characters: their encoding as bytes is left
      out. *)

From Stdlib Require Import NArith PeanoNat Bool List Ascii String Lia Permutation.
Import ListNotations.

Local Open Scope N_scope.
Local Open Scope list_scope.

(** ** Strings *)

Definition char := N.
Definition str := list char.

(** A source literal, character by character. *)
Definition u (s : string) : str := map N_of_ascii (list_ascii_of_string s).
Arguments u s%_string.

Definition NL : char := 10.
Definition SPACE : char := 32.
Definition DQUOTE : char := 34.
Definition SQUOTE : char := 39.
Definition DASH : char := 45.
Definition COLON : char := 58.

Fixpoint str_eqb (a b : str) : bool :=
  match a, b with
  | [], [] => true
  | x :: a', y :: b' => (x =? y) && str_eqb a' b'
  | _, _ => false
  end.

(** [c in s] for a one-character [c]. *)
Definition contains (c : char) (s : str) : bool := existsb (N.eqb c) s.

(** [key in order] for a list of strings. *)
Definition str_in (k : str) (l : list str) : bool := existsb (str_eqb k) l.

(** The characters [str.strip()] removes when called without argument:
    the code points for which [str.isspace] holds. *)
Definition isspace (c : char) : bool :=
  ((0x09 <=? c) && (c <=? 0x0D)) || ((0x1C <=? c) && (c <=? 0x1F))
  || (c =? 0x20) || (c =? 0x85) || (c =? 0xA0) || (c =? 0x1680)
  || ((0x2000 <=? c) && (c <=? 0x200A))
  || (c =? 0x2028) || (c =? 0x2029) || (c =? 0x202F) || (c =? 0x205F)
  || (c =? 0x3000).

Fixpoint lstrip (p : char -> bool) (s : str) : str :=
  match s with
  | [] => []
  | c :: s' => if p c then lstrip p s' else s
  end.

Definition rstrip (p : char -> bool) (s : str) : str := rev (lstrip p (rev s)).

Definition strip (p : char -> bool) (s : str) : str := rstrip p (lstrip p s).

(** [s.strip()] *)
Definition strip_ws : str -> str := strip isspace.

(** [s.strip(chars)] *)
Definition strip_chars (chars : str) : str -> str :=
  strip (fun c => contains c chars).

(** [s.split(sep)] for a one-character separator: never empty. *)
Fixpoint split (sep : char) (s : str) : list str :=
  match s with
  | [] => [[]]
  | c :: s' =>
      if c =? sep then [] :: split sep s'
      else match split sep s' with
           | l :: ls => (c :: l) :: ls
           | [] => [[c]]
           end
  end.

(** [s.partition(sep)]: the text before the first separator, the
    separator, the text after it; [s] and two empty strings when there
    is none. *)
Fixpoint partition (sep : char) (s : str) : str * str * str :=
  match s with
  | [] => ([], [], [])
  | c :: s' =>
      if c =? sep then ([], [sep], s')
      else let '(a, m, b) := partition sep s' in (c :: a, m, b)
  end.

(** [sep.join(ls)] for a one-character separator. *)
Fixpoint join (sep : char) (ls : list str) : str :=
  match ls with
  | [] => []
  | [l] => l
  | l :: ls' => l ++ sep :: join sep ls'
  end.

Fixpoint startswith (p s : str) : bool :=
  match p, s with
  | [], _ => true
  | x :: p', y :: s' => (x =? y) && startswith p' s'
  | _ :: _, [] => false
  end.

Definition endswith (p s : str) : bool := startswith (rev p) (rev s).

(** ** Dictionaries *)

Definition dict (V : Type) := list (str * V).

Fixpoint dict_get {V} (k : str) (d : dict V) : option V :=
  match d with
  | [] => None
  | (k', v) :: d' => if str_eqb k k' then Some v else dict_get k d'
  end.

(** [k in d] *)
Definition dict_mem {V} (k : str) (d : dict V) : bool :=
  match dict_get k d with Some _ => true | None => false end.

(** [d.get(k, default)] *)
Definition dict_get_default (k : str) (d : dict str) (default : str) : str :=
  match dict_get k d with Some v => v | None => default end.

(** [d[k] = v] *)
Fixpoint dict_set {V} (k : str) (v : V) (d : dict V) : dict V :=
  match d with
  | [] => [(k, v)]
  | (k', v') :: d' =>
      if str_eqb k k' then (k', v) :: d' else (k', v') :: dict_set k v d'
  end.

Definition dict_keys {V} (d : dict V) : list str := map fst d.

(** A dict display [{k1: v1, k2: v2, ...}]. *)
Definition dict_of_items {V} (items : list (str * V)) : dict V :=
  fold_left (fun d kv => dict_set (fst kv) (snd kv) d) items [].

(** ** The regular expression of [parse_frontmatter]

    [re.match(r'^---\n(.*?)\n---\n', content, re.DOTALL)]: the text must
    begin with the marker line; the lazy group then takes the fewest
    characters (newlines included) after which the closing marker line
    follows.  The result is the group and [content[match.end():]]. *)

Definition opening : str := u "---" ++ [NL].
Definition closing : str := NL :: u "---" ++ [NL].

Fixpoint lazy_until (pat s : str) {struct s} : option (str * str) :=
  if startswith pat s then Some ([], skipn (List.length pat) s)
  else match s with
       | [] => None
       | c :: s' =>
           match lazy_until pat s' with
           | Some (g, r) => Some (c :: g, r)
           | None => None
           end
       end.

Definition re_match (content : str) : option (str * str) :=
  if startswith opening content
  then lazy_until closing (skipn (List.length opening) content)
  else None.

(** ** [parse_frontmatter] *)

(** The value of a header line: [value.strip()], then [.strip] of the
    double quote, then [.strip] of the single quote. *)
Definition parse_value (value : str) : str :=
  strip_chars [SQUOTE] (strip_chars [DQUOTE] (strip_ws value)).

(** The body of the loop over the header's lines. *)
Definition parse_line (fm : dict str) (line : str) : dict str :=
  if contains COLON line then
    let '(key, _, value) := partition COLON line in
    dict_set (strip_ws key) (parse_value value) fm
  else fm.

(** [(None, content)] when the expression does not match, else the
    fields and the text after the closing marker line. *)
Definition parse_frontmatter (content : str) : option (dict str) * str :=
  match re_match content with
  | None => (None, content)
  | Some (fm_text, rest) =>
      (Some (fold_left parse_line (split NL (strip_ws fm_text)) []), rest)
  end.

(** ** [build_frontmatter] *)

Definition order : list str :=
  [u "name"; u "description"; u "model"; u "tools"; u "memory"].

(** The first loop: the keys of [order] that are in [fields]. *)
Definition ordered_lines (fields : dict str) : list str :=
  flat_map
    (fun key =>
       match dict_get key fields with
       | Some val =>
           if str_eqb key (u "description")
           then [key ++ u ": " ++ [DQUOTE] ++ val ++ [DQUOTE]]
           else [key ++ u ": " ++ val]
       | None => []
       end)
    order.

(** The second loop: the remaining keys, in the order of the dict. *)
Definition remaining_lines (fields : dict str) : list str :=
  flat_map
    (fun kv => if str_in (fst kv) order then [] else [fst kv ++ u ": " ++ snd kv])
    fields.

Definition build_frontmatter (fields : dict str) : str :=
  join NL ([u "---"] ++ ordered_lines fields ++ remaining_lines fields ++ [u "---"])
  ++ [NL].

(** ** The policy tables and [update_agent_file] *)

(** A value of [FIXED_MODEL_AGENTS]: a dict with the key [tools] and,
    for some agents, the key [memory]. *)
Record config := { tools : str; memory : option str }.

Inductive strategy := fixed | dynamic.

(** Reading and writing a file in text mode.

    [f.read()] of a file opened with [open(filepath, 'r')] translates
    line endings: a carriage return followed by a newline, and a
    carriage return alone, are both read as one newline. *)
Definition CR : char := 13.

Fixpoint read_text (on_disk : str) : str :=
  match on_disk with
  | [] => []
  | c :: rest =>
      if c =? CR then
        NL :: match rest with
              | c' :: rest' => if c' =? NL then read_text rest' else read_text rest
              | [] => []
              end
      else c :: read_text rest
  end.

(** [f.write(text)] to a file opened with [open(filepath, 'w')] puts the
    line separator of the platform, [os.linesep], for every newline. *)
Definition write_text (linesep : str) (text : str) : str :=
  flat_map (fun c => if c =? NL then linesep else [c]) text.

(** What a call of [update_agent_file] does with the text [content] that
    it has read: it skips the file and returns [False] (with one of two
    messages), or it hands [new_content] to the write and returns
    [True]. *)
Inductive outcome :=
  | Skip_no_frontmatter
  | Warn_uncategorized
  | Ok_written (s : strategy) (new_content : str).

Definition returned (o : outcome) : bool :=
  match o with Ok_written _ _ => true | _ => false end.

(** The text of the file once the call has returned, as text: the text
    that was read when nothing is written, else the text handed to the
    write. *)
Definition file_after (content : str) (o : outcome) : str :=
  match o with Ok_written _ new_content => new_content | _ => content end.

(** The dict [new_fm] that [update_agent_file] fills, with the strategy;
    [None] on the branch that keeps the original. *)
Definition merge_fields (FIXED : dict config) (DYNAMIC : dict str)
    (fm : dict str) (rel_path : str) : option (strategy * dict str) :=
  let new_fm := dict_set (u "name") (dict_get_default (u "name") fm []) [] in
  let new_fm :=
    dict_set (u "description") (dict_get_default (u "description") fm []) new_fm in
  match dict_get rel_path FIXED with
  | Some cfg =>
      let new_fm :=
        dict_set (u "model") (dict_get_default (u "model") fm (u "sonnet")) new_fm in
      let new_fm := dict_set (u "tools") (tools cfg) new_fm in
      let new_fm :=
        match memory cfg with
        | Some m => dict_set (u "memory") m new_fm
        | None => new_fm
        end in
      Some (fixed, new_fm)
  | None =>
      match dict_get rel_path DYNAMIC with
      | Some t => Some (dynamic, dict_set (u "tools") t new_fm)
      | None => None
      end
  end.

(** [update_agent_file] from the text [content] that [f.read()] gave. *)
Definition update_agent_file (FIXED : dict config) (DYNAMIC : dict str)
    (content rel_path : str) : outcome :=
  match parse_frontmatter content with
  | (None, _) => Skip_no_frontmatter
  | (Some fm, rest) =>
      match merge_fields FIXED DYNAMIC fm rel_path with
      | Some (s, new_fm) => Ok_written s (build_frontmatter new_fm ++ rest)
      | None => Warn_uncategorized
      end
  end.

(** The whole of [update_agent_file] on the characters [on_disk] of the
    file: the read, the function above and, on its last branch, the
    write.  The result is the value returned and the characters of the
    file afterwards; a file that is skipped is not opened for writing. *)
Definition update_agent_file_on_disk (linesep : str) (FIXED : dict config)
    (DYNAMIC : dict str) (on_disk rel_path : str) : bool * str :=
  let o := update_agent_file FIXED DYNAMIC (read_text on_disk) rel_path in
  (returned o,
   match o with
   | Ok_written _ new_content => write_text linesep new_content
   | _ => on_disk
   end).

(** ** The loop of [main] *)

(** A file found by the walk: its name, its path relative to the agents
    directory and its content.  For [main_loop] the content is the text
    as a read gives it, for [main_loop_on_disk] it is the characters
    that the file holds. *)
Record agent_file := { filename : str; rel_path : str; content : str }.

(** The loop over the files, from the counters [updated] and [skipped]:
    the final counters and, as text, what every file holds after the
    run. *)
Fixpoint main_loop (FIXED : dict config) (DYNAMIC : dict str)
    (files : list agent_file) (updated skipped : nat) : nat * nat * list str :=
  match files with
  | [] => (updated, skipped, [])
  | f :: files' =>
      if negb (endswith (u ".md") (filename f)) || str_eqb (filename f) (u "README.md")
      then let '(n, k, texts) := main_loop FIXED DYNAMIC files' updated skipped in
           (n, k, content f :: texts)
      else if startswith (u "templates/") (rel_path f)
      then let '(n, k, texts) := main_loop FIXED DYNAMIC files' updated (S skipped) in
           (n, k, content f :: texts)
      else
        let o := update_agent_file FIXED DYNAMIC (content f) (rel_path f) in
        let '(n, k, texts) :=
          if returned o
          then main_loop FIXED DYNAMIC files' (S updated) skipped
          else main_loop FIXED DYNAMIC files' updated (S skipped) in
        (n, k, file_after (content f) o :: texts)
  end.

(** The same loop on the characters of the files: the final counters
    and the characters that every file holds after the run.  A file
    that one of the first two tests passes over is not opened. *)
Fixpoint main_loop_on_disk (linesep : str) (FIXED : dict config)
    (DYNAMIC : dict str) (files : list agent_file) (updated skipped : nat)
    : nat * nat * list str :=
  match files with
  | [] => (updated, skipped, [])
  | f :: files' =>
      if negb (endswith (u ".md") (filename f)) || str_eqb (filename f) (u "README.md")
      then let '(n, k, disk) :=
             main_loop_on_disk linesep FIXED DYNAMIC files' updated skipped in
           (n, k, content f :: disk)
      else if startswith (u "templates/") (rel_path f)
      then let '(n, k, disk) :=
             main_loop_on_disk linesep FIXED DYNAMIC files' updated (S skipped) in
           (n, k, content f :: disk)
      else
        let r := update_agent_file_on_disk linesep FIXED DYNAMIC
                   (content f) (rel_path f) in
        let '(n, k, disk) :=
          if fst r
          then main_loop_on_disk linesep FIXED DYNAMIC files' (S updated) skipped
          else main_loop_on_disk linesep FIXED DYNAMIC files' updated (S skipped) in
        (n, k, snd r :: disk)
  end.

(** Table entries as they are written in the source. *)
Definition fixed_item (k t : string) : str * config :=
  (u k, {| tools := u t; memory := None |}).
Arguments fixed_item (k t)%_string.

Definition fixed_item_memory (k t m : string) : str * config :=
  (u k, {| tools := u t; memory := Some (u m) |}).
Arguments fixed_item_memory (k t m)%_string.

Definition dynamic_item (k t : string) : str * str := (u k, u t).
Arguments dynamic_item (k t)%_string.

Definition FIXED_MODEL_AGENTS : dict config :=
  dict_of_items [
    fixed_item_memory "orchestration/autonomous-controller.md" "Read, Glob, Grep, Bash, Task" "project";
    fixed_item_memory "orchestration/bug-council-orchestrator.md" "Read, Glob, Grep, Bash, Task" "project";
    fixed_item "orchestration/code-review-coordinator.md" "Read, Glob, Grep, Bash, Task";
    fixed_item_memory "orchestration/quality-gate-enforcer.md" "Read, Glob, Grep, Bash" "project";
    fixed_item "orchestration/requirements-validator.md" "Read, Glob, Grep, Bash";
    fixed_item "orchestration/scope-validator.md" "Read, Glob, Grep, Bash";
    fixed_item "orchestration/sprint-loop.md" "Read, Glob, Grep, Bash, Task";
    fixed_item_memory "orchestration/sprint-orchestrator.md" "Read, Glob, Grep, Bash, Task" "project";
    fixed_item_memory "orchestration/task-loop.md" "Read, Glob, Grep, Bash, Task" "project";
    fixed_item "orchestration/track-merger.md" "Read, Glob, Grep, Bash, Task";
    fixed_item "orchestration/workflow-compliance.md" "Read, Glob, Grep, Bash";
    fixed_item "diagnosis/adversarial-tester.md" "Read, Glob, Grep, Bash";
    fixed_item "diagnosis/code-archaeologist.md" "Read, Glob, Grep, Bash";
    fixed_item "diagnosis/pattern-matcher.md" "Read, Glob, Grep, Bash";
    fixed_item "diagnosis/root-cause-analyst.md" "Read, Glob, Grep, Bash";
    fixed_item "diagnosis/systems-thinker.md" "Read, Glob, Grep, Bash";
    fixed_item "backend/api-design-reviewer.md" "Read, Glob, Grep";
    fixed_item "backend/backend-code-reviewer-csharp.md" "Read, Glob, Grep";
    fixed_item "backend/backend-code-reviewer-go.md" "Read, Glob, Grep";
    fixed_item "backend/backend-code-reviewer-java.md" "Read, Glob, Grep";
    fixed_item "backend/backend-code-reviewer-php.md" "Read, Glob, Grep";
    fixed_item "backend/backend-code-reviewer-python.md" "Read, Glob, Grep";
    fixed_item "backend/backend-code-reviewer-ruby.md" "Read, Glob, Grep";
    fixed_item "backend/backend-code-reviewer-typescript.md" "Read, Glob, Grep";
    fixed_item "frontend/frontend-code-reviewer.md" "Read, Glob, Grep";
    fixed_item "mobile/android-code-reviewer.md" "Read, Glob, Grep";
    fixed_item "mobile/ios-code-reviewer.md" "Read, Glob, Grep";
    fixed_item "database/sql-code-reviewer.md" "Read, Glob, Grep";
    fixed_item "database/nosql-code-reviewer.md" "Read, Glob, Grep";
    fixed_item "security/compliance-engineer.md" "Read, Glob, Grep, Bash";
    fixed_item "security/mobile-security-auditor.md" "Read, Glob, Grep, Bash";
    fixed_item "security/penetration-tester.md" "Read, Glob, Grep, Bash";
    fixed_item "security/security-auditor-csharp.md" "Read, Glob, Grep, Bash";
    fixed_item "security/security-auditor-go.md" "Read, Glob, Grep, Bash";
    fixed_item "security/security-auditor-java.md" "Read, Glob, Grep, Bash";
    fixed_item "security/security-auditor-php.md" "Read, Glob, Grep, Bash";
    fixed_item "security/security-auditor-python.md" "Read, Glob, Grep, Bash";
    fixed_item "security/security-auditor-ruby.md" "Read, Glob, Grep, Bash";
    fixed_item "security/security-auditor-typescript.md" "Read, Glob, Grep, Bash";
    fixed_item_memory "research/research-agent.md" "Read, Glob, Grep, Bash, WebSearch, WebFetch" "project";
    fixed_item "planning/prd-generator.md" "Read, Glob, Grep, Bash, Write";
    fixed_item "planning/sprint-planner.md" "Read, Glob, Grep, Bash, Write";
    fixed_item "planning/task-graph-analyzer.md" "Read, Glob, Grep, Bash, Write";
    fixed_item "product/product-manager.md" "Read, Glob, Grep, Bash, Write";
    fixed_item "architecture/architect.md" "Read, Glob, Grep, Bash, Write";
    fixed_item "quality/test-coordinator.md" "Read, Glob, Grep, Bash, Task";
    fixed_item "quality/refactoring-coordinator.md" "Read, Glob, Grep, Bash, Task";
    fixed_item "quality/security-auditor.md" "Read, Glob, Grep, Bash";
    fixed_item "quality/visual-verification-agent.md" "Read, Glob, Grep, Bash";
    fixed_item "quality/performance-auditor-android.md" "Read, Glob, Grep, Bash";
    fixed_item "quality/performance-auditor-csharp.md" "Read, Glob, Grep, Bash";
    fixed_item "quality/performance-auditor-go.md" "Read, Glob, Grep, Bash";
    fixed_item "quality/performance-auditor-ios.md" "Read, Glob, Grep, Bash";
    fixed_item "quality/performance-auditor-java.md" "Read, Glob, Grep, Bash";
    fixed_item "quality/performance-auditor-php.md" "Read, Glob, Grep, Bash";
    fixed_item "quality/performance-auditor-python.md" "Read, Glob, Grep, Bash";
    fixed_item "quality/performance-auditor-ruby.md" "Read, Glob, Grep, Bash";
    fixed_item "quality/performance-auditor-typescript.md" "Read, Glob, Grep, Bash";
    fixed_item "ux/ux-system-coordinator.md" "Read, Glob, Grep, Bash, Task";
    fixed_item "ux/design-system-architect.md" "Read, Edit, Write, Glob, Grep, Bash";
    fixed_item "ux/design-compliance-validator.md" "Read, Glob, Grep"
  ].

Definition DYNAMIC_MODEL_AGENTS_TOOLS : dict str :=
  dict_of_items [
    dynamic_item "backend/api-designer.md" "Read, Edit, Write, Glob, Grep, Bash";
    dynamic_item "backend/api-developer-csharp.md" "Read, Edit, Write, Glob, Grep, Bash";
    dynamic_item "backend/api-developer-go.md" "Read, Edit, Write, Glob, Grep, Bash";
    dynamic_item "backend/api-developer-java.md" "Read, Edit, Write, Glob, Grep, Bash";
    dynamic_item "backend/api-developer-php.md" "Read, Edit, Write, Glob, Grep, Bash";
    dynamic_item "backend/api-developer-python.md" "Read, Edit, Write, Glob, Grep, Bash";
    dynamic_item "backend/api-developer-ruby.md" "Read, Edit, Write, Glob, Grep, Bash";
    dynamic_item "backend/api-developer-typescript.md" "Read, Edit, Write, Glob, Grep, Bash";
    dynamic_item "frontend/frontend-designer.md" "Read, Edit, Write, Glob, Grep, Bash";
    dynamic_item "frontend/frontend-developer.md" "Read, Edit, Write, Glob, Grep, Bash";
    dynamic_item "database/database-designer.md" "Read, Edit, Write, Glob, Grep, Bash";
    dynamic_item "database/database-developer-android.md" "Read, Edit, Write, Glob, Grep, Bash";
    dynamic_item "database/database-developer-csharp.md" "Read, Edit, Write, Glob, Grep, Bash";
    dynamic_item "database/database-developer-go.md" "Read, Edit, Write, Glob, Grep, Bash";
    dynamic_item "database/database-developer-ios.md" "Read, Edit, Write, Glob, Grep, Bash";
    dynamic_item "database/database-developer-java.md" "Read, Edit, Write, Glob, Grep, Bash";
    dynamic_item "database/database-developer-php.md" "Read, Edit, Write, Glob, Grep, Bash";
    dynamic_item "database/database-developer-python.md" "Read, Edit, Write, Glob, Grep, Bash";
    dynamic_item "database/database-developer-ruby.md" "Read, Edit, Write, Glob, Grep, Bash";
    dynamic_item "database/database-developer-typescript.md" "Read, Edit, Write, Glob, Grep, Bash";
    dynamic_item "mobile/android-designer.md" "Read, Edit, Write, Glob, Grep, Bash";
    dynamic_item "mobile/android-developer.md" "Read, Edit, Write, Glob, Grep, Bash";
    dynamic_item "mobile/ios-designer.md" "Read, Edit, Write, Glob, Grep, Bash";
    dynamic_item "mobile/ios-developer.md" "Read, Edit, Write, Glob, Grep, Bash";
    dynamic_item "mobile/flutter-developer.md" "Read, Edit, Write, Glob, Grep, Bash";
    dynamic_item "mobile/react-native-developer.md" "Read, Edit, Write, Glob, Grep, Bash";
    dynamic_item "python/python-developer-generic.md" "Read, Edit, Write, Glob, Grep, Bash";
    dynamic_item "scripting/shell-developer.md" "Read, Edit, Write, Glob, Grep, Bash";
    dynamic_item "scripting/powershell-developer.md" "Read, Edit, Write, Glob, Grep, Bash";
    dynamic_item "data-ai/data-engineer.md" "Read, Edit, Write, Glob, Grep, Bash";
    dynamic_item "data-ai/ml-engineer.md" "Read, Edit, Write, Glob, Grep, Bash";
    dynamic_item "devops/cicd-specialist.md" "Read, Edit, Write, Glob, Grep, Bash";
    dynamic_item "devops/docker-specialist.md" "Read, Edit, Write, Glob, Grep, Bash";
    dynamic_item "devops/kubernetes-specialist.md" "Read, Edit, Write, Glob, Grep, Bash";
    dynamic_item "devops/mobile-cicd-specialist.md" "Read, Edit, Write, Glob, Grep, Bash";
    dynamic_item "devops/terraform-specialist.md" "Read, Edit, Write, Glob, Grep, Bash";
    dynamic_item "infrastructure/configuration-manager.md" "Read, Edit, Write, Glob, Grep, Bash";
    dynamic_item "sre/platform-engineer.md" "Read, Edit, Write, Glob, Grep, Bash";
    dynamic_item "sre/site-reliability-engineer.md" "Read, Edit, Write, Glob, Grep, Bash";
    dynamic_item "specialized/observability-engineer.md" "Read, Edit, Write, Glob, Grep, Bash";
    dynamic_item "accessibility/accessibility-specialist.md" "Read, Edit, Write, Glob, Grep, Bash";
    dynamic_item "accessibility/mobile-accessibility-specialist.md" "Read, Edit, Write, Glob, Grep, Bash";
    dynamic_item "ux/ux-specialist-web.md" "Read, Edit, Write, Glob, Grep, Bash";
    dynamic_item "ux/ux-specialist-mobile.md" "Read, Edit, Write, Glob, Grep, Bash";
    dynamic_item "ux/ux-specialist-desktop.md" "Read, Edit, Write, Glob, Grep, Bash";
    dynamic_item "ux/design-system-orchestrator.md" "Read, Edit, Write, Glob, Grep, Bash, Task";
    dynamic_item "ux/color-palette-specialist.md" "Read, Edit, Write, Glob, Grep, Bash";
    dynamic_item "ux/typography-specialist.md" "Read, Edit, Write, Glob, Grep, Bash";
    dynamic_item "ux/ui-style-curator.md" "Read, Edit, Write, Glob, Grep, Bash";
    dynamic_item "ux/data-visualization-designer.md" "Read, Edit, Write, Glob, Grep, Bash";
    dynamic_item "ux/design-drift-detector.md" "Read, Glob, Grep, Bash";
    dynamic_item "quality/test-writer.md" "Read, Edit, Write, Glob, Grep, Bash";
    dynamic_item "quality/unit-test-writer-csharp.md" "Read, Edit, Write, Glob, Grep, Bash";
    dynamic_item "quality/unit-test-writer-go.md" "Read, Edit, Write, Glob, Grep, Bash";
    dynamic_item "quality/unit-test-writer-java.md" "Read, Edit, Write, Glob, Grep, Bash";
    dynamic_item "quality/unit-test-writer-php.md" "Read, Edit, Write, Glob, Grep, Bash";
    dynamic_item "quality/unit-test-writer-python.md" "Read, Edit, Write, Glob, Grep, Bash";
    dynamic_item "quality/unit-test-writer-ruby.md" "Read, Edit, Write, Glob, Grep, Bash";
    dynamic_item "quality/unit-test-writer-typescript.md" "Read, Edit, Write, Glob, Grep, Bash";
    dynamic_item "quality/e2e-tester.md" "Read, Edit, Write, Glob, Grep, Bash";
    dynamic_item "quality/mobile-test-writer.md" "Read, Edit, Write, Glob, Grep, Bash";
    dynamic_item "quality/mobile-e2e-tester.md" "Read, Edit, Write, Glob, Grep, Bash";
    dynamic_item "quality/runtime-verifier.md" "Read, Glob, Grep, Bash";
    dynamic_item "quality/documentation-coordinator.md" "Read, Edit, Write, Glob, Grep, Bash";
    dynamic_item "devrel/developer-advocate.md" "Read, Edit, Write, Glob, Grep, Bash";
    dynamic_item "support/dependency-manager.md" "Read, Edit, Write, Glob, Grep, Bash"
  ].

(** ** Notions used to state the properties *)

(** The first line of a text. *)
Definition first_line (s : str) : str := hd [] (split NL s).

(** The text neither begins nor ends with a character of the class [p];
    the empty text qualifies. *)
Definition first_ok (p : char -> bool) (s : str) : bool :=
  match s with
  | [] => true
  | c :: _ => negb (p c)
  end.

Definition last_ok (p : char -> bool) (s : str) : bool := first_ok p (rev s).

Definition isquote (c : char) : bool := (c =? DQUOTE) || (c =? SQUOTE).

(** No whitespace and no quote character at either end. *)
Definition bare (s : str) : bool :=
  first_ok (fun c => isspace c || isquote c) s
  && last_ok (fun c => isspace c || isquote c) s.

(** No quote character at either end. *)
Definition unquoted (s : str) : bool := first_ok isquote s && last_ok isquote s.

(** A table value that a header line can carry as it is: one line, not
    empty, bare. *)
Definition value_ok (v : str) : bool :=
  negb (contains NL v) && negb (str_eqb v []) && bare v.

Definition tables_ok (FIXED : dict config) (DYNAMIC : dict str) : bool :=
  forallb
    (fun kv =>
       value_ok (tools (snd kv))
       && match memory (snd kv) with Some m => value_ok m | None => true end)
    FIXED
  && forallb (fun kv => value_ok (snd kv)) DYNAMIC.

(** The header line that [build_frontmatter] writes for a key of [order]
    and the value the parser reads back from it. *)
Definition reread_value (key val : str) : str :=
  parse_value
    (SPACE :: (if str_eqb key (u "description")
               then [DQUOTE] ++ val ++ [DQUOTE] else val)).

Definition reread (fields : dict str) : dict str :=
  map (fun kv => (fst kv, reread_value (fst kv) (snd kv))) fields.

(** The fields a second update merges from a header that the first one
    wrote: [name], [description] and [model] are carried over from the
    header as it reads, the other keys come from the tables again. *)
Definition carried (k : str) : bool :=
  str_in k [u "name"; u "description"; u "model"].

Definition second_fields (new_fm : dict str) : dict str :=
  map
    (fun kv =>
       (fst kv,
        if carried (fst kv) then reread_value (fst kv) (snd kv) else snd kv))
    new_fm.

(** The quote rule as the specification words it, for comparison with
    [parse_value]: after trimming, one layer of quotes is removed, and
    only when the value begins and ends with the same quote character. *)
Definition unquote_one_layer (s : str) : str :=
  match s with
  | q :: s' =>
      if isquote q then
        match rev s' with
        | q' :: m => if q' =? q then rev m else s
        | [] => s
        end
      else s
  | [] => s
  end.

Definition spec_value (value : str) : str := unquote_one_layer (strip_ws value).

(** A header line that cannot be taken for a marker line: it holds no
    newline and begins with a character other than the dash. *)
Definition line_ok (l : str) : bool :=
  negb (contains NL l)
  && match l with
     | [] => false
     | c :: _ => negb (c =? DASH)
     end.

(** The text that follows the first header line in a document whose
    other header lines are [ls] and whose body is [rest]. *)
Fixpoint header_tail (ls : list str) (rest : str) : str :=
  match ls with
  | [] => closing ++ rest
  | l :: ls' => NL :: l ++ header_tail ls' rest
  end.

(** ** Sample documents *)

(** A header with a model and a key outside [order], and a body. *)
Definition sample_doc : str :=
  u "---" ++ NL :: u "name: architect" ++ NL ::
  u "description: Designs the system" ++ NL ::
  u "model: opus" ++ NL :: u "memory: user" ++ NL :: u "color: blue" ++ NL ::
  u "---" ++ NL :: NL :: u "# Architect" ++ [NL].

Definition sample_fields : dict str :=
  [(u "name", u "architect"); (u "description", u "Designs the system");
   (u "model", u "opus"); (u "memory", u "user"); (u "color", u "blue")].

Definition sample_body : str := NL :: u "# Architect" ++ [NL].

(** A header whose name is given in quotes, with spaces inside them. *)
Definition padded_name_doc : str :=
  u "---" ++ NL :: u "name: " ++ DQUOTE :: u " foo " ++ DQUOTE :: NL ::
  u "description: bar" ++ NL :: u "---" ++ NL :: u "BODY" ++ [NL].

Definition padded_name_first : str :=
  u "---" ++ NL :: u "name:  foo " ++ NL ::
  u "description: " ++ DQUOTE :: u "bar" ++ DQUOTE :: NL ::
  u "tools: Read, Edit, Write, Glob, Grep, Bash" ++ NL ::
  u "---" ++ NL :: u "BODY" ++ [NL].

Definition padded_name_second : str :=
  u "---" ++ NL :: u "name: foo" ++ NL ::
  u "description: " ++ DQUOTE :: u "bar" ++ DQUOTE :: NL ::
  u "tools: Read, Edit, Write, Glob, Grep, Bash" ++ NL ::
  u "---" ++ NL :: u "BODY" ++ [NL].

(** A file whose header is not closed. *)
Definition unclosed_file : agent_file :=
  {| filename := u "task-loop.md";
     rel_path := u "orchestration/task-loop.md";
     content := opening ++ u "name: x" ++ [NL] |}.

(** The scenario of the specification. *)
Definition scenario_input : str :=
  u "---" ++ NL :: u "name: foo" ++ NL :: u "description: bar" ++ NL ::
  u "---" ++ NL :: u "BODY" ++ [NL].

Definition scenario_output : str :=
  u "---" ++ NL :: u "name: foo" ++ NL ::
  u "description: " ++ DQUOTE :: u "bar" ++ DQUOTE :: NL ::
  u "model: sonnet" ++ NL :: u "tools: Read, Write" ++ NL ::
  u "memory: project" ++ NL :: u "---" ++ NL :: u "BODY" ++ [NL].

(** ** Notions used to state further properties *)



(** The key a header line sets, if it sets one. *)
Definition line_key (line : str) : option str :=
  if contains COLON line
  then Some (strip_ws (fst (fst (partition COLON line))))
  else None.

(** The line [build_frontmatter] writes for a key and its value. *)
Definition field_line (key val : str) : str :=
  if str_eqb key (u "description")
  then key ++ u ": " ++ [DQUOTE] ++ val ++ [DQUOTE]
  else key ++ u ": " ++ val.

(** The keys in the order [build_frontmatter] writes them. *)
Definition emitted_keys (fields : dict str) : list str :=
  filter (fun k => dict_mem k fields) order
  ++ filter (fun k => negb (str_in k order)) (dict_keys fields).

(** The [tools] value the tables give for a path. *)
Definition policy_tools (FIXED : dict config) (DYNAMIC : dict str)
    (rel : str) : option str :=
  match dict_get rel FIXED with
  | Some cfg => Some (tools cfg)
  | None => dict_get rel DYNAMIC
  end.

(** The two tests at the head of the loop of [main]. *)
Definition excluded (f : agent_file) : bool :=
  negb (endswith (u ".md") (filename f)) || str_eqb (filename f) (u "README.md").

Definition is_template (f : agent_file) : bool :=
  startswith (u "templates/") (rel_path f).

(** What one round of the loop does with one file. *)
Definition final_text (FIXED : dict config) (DYNAMIC : dict str)
    (f : agent_file) : str :=
  if excluded f || is_template f then content f
  else file_after (content f)
         (update_agent_file FIXED DYNAMIC (content f) (rel_path f)).

Definition counted_updated (FIXED : dict config) (DYNAMIC : dict str)
    (f : agent_file) : bool :=
  negb (excluded f) && negb (is_template f)
  && returned (update_agent_file FIXED DYNAMIC (content f) (rel_path f)).

Definition counted_skipped (FIXED : dict config) (DYNAMIC : dict str)
    (f : agent_file) : bool :=
  negb (excluded f)
  && (is_template f
      || negb (returned (update_agent_file FIXED DYNAMIC (content f) (rel_path f)))).

(** A file of the walk with its characters read. *)
Definition as_read (f : agent_file) : agent_file :=
  {| filename := filename f;
     rel_path := rel_path f;
     content := read_text (content f) |}.

(** The file as a second run finds it. *)
Definition rerun_file (FIXED : dict config) (DYNAMIC : dict str)
    (f : agent_file) : agent_file :=
  {| filename := filename f;
     rel_path := rel_path f;
     content := final_text FIXED DYNAMIC f |}.

(** A field as the parser stores it: the key is one line, trimmed and
    holds no colon; the value is one line and has no single quote at
    either end. *)
Definition field_wf (kv : str * str) : bool :=
  negb (contains NL (fst kv)) && negb (contains COLON (fst kv))
  && first_ok isspace (fst kv) && last_ok isspace (fst kv)
  && negb (contains NL (snd kv))
  && first_ok (fun c => c =? SQUOTE) (snd kv)
  && last_ok (fun c => c =? SQUOTE) (snd kv).

(** A header without name and description. *)
Definition nameless_doc : str :=
  u "---" ++ NL :: u "model: opus" ++ NL :: u "tools: Everything" ++ NL ::
  u "---" ++ NL :: u "BODY" ++ [NL].

(** Files as the walk gives them. *)
Definition sample_file : agent_file :=
  {| filename := u "architect.md";
     rel_path := u "architecture/architect.md";
     content := sample_doc |}.

Definition readme_file : agent_file :=
  {| filename := u "README.md";
     rel_path := u "architecture/README.md";
     content := sample_doc |}.

Definition template_file : agent_file :=
  {| filename := u "agent.md";
     rel_path := u "templates/agent.md";
     content := sample_doc |}.

(** A file with a header whose body has a line ending in a carriage
    return and a newline. *)
Definition crlf_body : str := u "a" ++ [CR; NL] ++ u "b" ++ [NL].


(** The same file as an editor that ends every line with a carriage
    return and a newline saves it. *)
Definition crlf_saved_doc : str :=
  u "---" ++ [CR; NL] ++ u "name: x" ++ [CR; NL] ++ u "color: blue" ++ [CR; NL]
  ++ u "---" ++ [CR; NL] ++ crlf_body.

(** Files with carriage returns that the loop leaves alone: one whose
    path is in neither table and one without header. *)
Definition crlf_uncategorized_file : agent_file :=
  {| filename := u "todo.md";
     rel_path := u "notes/todo.md";
     content := crlf_saved_doc |}.

Definition crlf_headerless_file : agent_file :=
  {| filename := u "architect.md";
     rel_path := u "architecture/architect.md";
     content := crlf_body |}.

(** * Properties *)

(** ** Strings and dictionaries *)

Lemma str_eqb_eq (a b : str) : str_eqb a b = true <-> a = b.
Proof.
  revert b; induction a as [|x a IH]; intros [|y b]; simpl;
    try (split; [discriminate | discriminate]); try tauto.
  rewrite andb_true_iff, N.eqb_eq, IH.
  split; [intros [-> ->]; reflexivity | intros E; inversion E; auto].
Qed.

Lemma contains_app (c : char) (a b : str) :
  contains c (a ++ b) = contains c a || contains c b.
Proof. apply existsb_app. Qed.

Lemma contains_false_In (c : char) (s : str) :
  contains c s = false <-> ~ In c s.
Proof.
  unfold contains; split.
  - intros E H. assert (existsb (N.eqb c) s = true) as E'.
    { apply existsb_exists; exists c; split; [assumption | apply N.eqb_refl]. }
    congruence.
  - intros H. destruct (existsb (N.eqb c) s) eqn:E; [|reflexivity].
    apply existsb_exists in E as (x & Hx & Ex).
    apply N.eqb_eq in Ex; subst x; contradiction.
Qed.

Lemma contains_incl (c : char) (s t : str) :
  incl t s -> contains c s = false -> contains c t = false.
Proof.
  intros I H. apply contains_false_In. apply contains_false_In in H.
  intros Ht; apply H, I, Ht.
Qed.

Lemma startswith_app (p s : str) :
  startswith p s = true -> s = p ++ skipn (List.length p) s.
Proof.
  revert s; induction p as [|x p IH]; intros s H; [reflexivity|].
  destruct s as [|y s]; [discriminate|]. simpl in H.
  apply andb_true_iff in H as [E H]. apply N.eqb_eq in E; subst y.
  simpl; f_equal; apply IH, H.
Qed.

Lemma startswith_prefix (p r : str) : startswith p (p ++ r) = true.
Proof.
  induction p as [|x p IH]; [reflexivity|].
  simpl; rewrite N.eqb_refl; exact IH.
Qed.

Lemma dict_get_In {V} (k : str) (d : dict V) (v : V) :
  dict_get k d = Some v -> In (k, v) d.
Proof.
  induction d as [|[k' v'] d IH]; simpl; [discriminate|].
  destruct (str_eqb k k') eqn:E.
  - apply str_eqb_eq in E; subst k'. intros H; inversion H; auto.
  - auto.
Qed.

Lemma dict_mem_In_keys {V} (k : str) (d : dict V) :
  dict_mem k d = true -> In k (dict_keys d).
Proof.
  unfold dict_mem. destruct (dict_get k d) as [v|] eqn:E; [|discriminate].
  intros _. apply dict_get_In in E.
  apply (in_map fst) in E; exact E.
Qed.

Lemma dict_mem_false {V} (k : str) (d : dict V) :
  dict_mem k d = false -> dict_get k d = None.
Proof.
  unfold dict_mem; destruct (dict_get k d); [discriminate | reflexivity].
Qed.

(** ** The regular expression *)

(** A match splits the text at an occurrence of the pattern. *)
Lemma lazy_until_sound (pat s g r : str) :
  lazy_until pat s = Some (g, r) -> s = g ++ pat ++ r.
Proof.
  revert g r; induction s as [|c s IH]; intros g r; simpl.
  - destruct (startswith pat []) eqn:E; [|discriminate].
    intros H; inversion H; subst. apply startswith_app in E; exact E.
  - destruct (startswith pat (c :: s)) eqn:E.
    + intros H; inversion H; subst. apply startswith_app in E; exact E.
    + destruct (lazy_until pat s) as [[g' r']|]; [|discriminate].
      intros H; inversion H; subst. simpl; f_equal; apply IH; reflexivity.
Qed.

(** Where the pattern occurs, there is a match. *)
Lemma lazy_until_complete (pat a b : str) :
  exists g r, lazy_until pat (a ++ pat ++ b) = Some (g, r).
Proof.
  induction a as [|c a (g & r & IH)].
  - simpl app. destruct (pat ++ b) eqn:E.
    + simpl. rewrite <- E, startswith_prefix. eauto.
    + simpl. rewrite <- E, startswith_prefix. eauto.
  - simpl. destruct (startswith pat (c :: a ++ pat ++ b)); [eauto|].
    rewrite IH; eauto.
Qed.

Lemma re_match_opening (content fm_text rest : str) :
  re_match content = Some (fm_text, rest) ->
  content = opening ++ fm_text ++ closing ++ rest.
Proof.
  unfold re_match. destruct (startswith opening content) eqn:E; [|discriminate].
  intros H. apply lazy_until_sound in H. apply startswith_app in E.
  rewrite E at 1. rewrite H. reflexivity.
Qed.

(** ** The policy tables *)

Lemma disjoint_by_keys {V W} (A : dict V) (B : dict W) :
  forallb (fun k => negb (dict_mem k B)) (dict_keys A) = true ->
  forall k, dict_mem k A && dict_mem k B = false.
Proof.
  intros H k. destruct (dict_mem k A) eqn:E; [|reflexivity].
  apply dict_mem_In_keys in E.
  rewrite forallb_forall in H. specialize (H k E).
  simpl. destruct (dict_mem k B); [discriminate | reflexivity].
Qed.

(** C9: no path is a key of both [FIXED_MODEL_AGENTS] and
    [DYNAMIC_MODEL_AGENTS_TOOLS]; so at most one of the two branches of
    [update_agent_file] that look a path up can apply to it. *)
Theorem C9_tables_disjoint :
  forall k : str,
    dict_mem k FIXED_MODEL_AGENTS && dict_mem k DYNAMIC_MODEL_AGENTS_TOOLS = false.
Proof.
  apply disjoint_by_keys. vm_compute. reflexivity.
Qed.

(** ** Skipped files *)

Lemma startswith_opening_first_line (s : str) :
  startswith opening s = true -> first_line s = u "---".
Proof.
  intros H. apply startswith_app in H. rewrite H.
  unfold first_line. reflexivity.
Qed.

Lemma no_marker_no_match (content : str) :
  first_line content <> u "---" -> re_match content = None.
Proof.
  intros H. unfold re_match.
  destruct (startswith opening content) eqn:E; [|reflexivity].
  apply startswith_opening_first_line in E. contradiction.
Qed.

Lemma skip_when_no_match (FIXED : dict config) (DYNAMIC : dict str)
    (content rel : str) :
  re_match content = None ->
  update_agent_file FIXED DYNAMIC content rel = Skip_no_frontmatter.
Proof.
  intros H. unfold update_agent_file, parse_frontmatter. rewrite H. reflexivity.
Qed.

Lemma no_occurrence (pat x : str) :
  lazy_until pat x = None -> forall a b, x <> a ++ pat ++ b.
Proof.
  intros H a b E. subst x.
  destruct (lazy_until_complete pat a b) as (g & r & E). congruence.
Qed.

(** A text can be told to hold no closed header by running the search. *)
Lemma unclosed_no_closing (x : str) :
  lazy_until closing x = None ->
  forall a b, opening ++ x <> opening ++ a ++ closing ++ b.
Proof.
  intros H a b E. apply app_inv_head in E. exact (no_occurrence _ _ H a b E).
Qed.

(** C2, as amended: a file that begins with the marker line and in which
    no closing marker line follows a header line is not an error of its
    own: the regular expression does not match, the file is skipped
    exactly as a file without header is, nothing is written, and the
    loop goes on with the next file, having counted one more skipped
    file. *)
Theorem C2_unclosed_header_is_skipped :
  forall (FIXED : dict config) (DYNAMIC : dict str) (f : agent_file)
         (files : list agent_file) (updated skipped : nat),
    first_line (content f) = u "---" ->
    (forall a b, content f <> opening ++ a ++ closing ++ b) ->
    endswith (u ".md") (filename f) = true ->
    str_eqb (filename f) (u "README.md") = false ->
    startswith (u "templates/") (rel_path f) = false ->
    update_agent_file FIXED DYNAMIC (content f) (rel_path f) = Skip_no_frontmatter
    /\ file_after (content f) (update_agent_file FIXED DYNAMIC (content f) (rel_path f))
       = content f
    /\ main_loop FIXED DYNAMIC (f :: files) updated skipped
       = (let '(n, k, texts) := main_loop FIXED DYNAMIC files updated (S skipped) in
          (n, k, content f :: texts)).
Proof.
  intros FIXED DYNAMIC f files updated skipped _ Hx Hmd Hreadme Htpl.
  assert (update_agent_file FIXED DYNAMIC (content f) (rel_path f)
          = Skip_no_frontmatter) as Ho.
  { apply skip_when_no_match.
    destruct (re_match (content f)) as [[g r]|] eqn:E; [|reflexivity].
    apply re_match_opening in E. destruct (Hx g r E). }
  split; [exact Ho|]. split; [rewrite Ho; reflexivity|].
  cbn [main_loop]. rewrite Hmd, Hreadme. cbn [negb orb].
  rewrite Htpl, Ho. reflexivity.
Qed.

Lemma C2_unclosed_header_is_skipped_witness :
  update_agent_file FIXED_MODEL_AGENTS DYNAMIC_MODEL_AGENTS_TOOLS
    (content unclosed_file) (rel_path unclosed_file) = Skip_no_frontmatter
  /\ file_after (content unclosed_file)
       (update_agent_file FIXED_MODEL_AGENTS DYNAMIC_MODEL_AGENTS_TOOLS
          (content unclosed_file) (rel_path unclosed_file))
     = content unclosed_file
  /\ main_loop FIXED_MODEL_AGENTS DYNAMIC_MODEL_AGENTS_TOOLS [unclosed_file] 0 0
     = (0%nat, 1%nat, [content unclosed_file]).
Proof.
  apply (C2_unclosed_header_is_skipped FIXED_MODEL_AGENTS DYNAMIC_MODEL_AGENTS_TOOLS
           unclosed_file [] 0 0).
  - reflexivity.
  - apply unclosed_no_closing. reflexivity.
  - reflexivity.
  - reflexivity.
  - reflexivity.
Defined.

(** C2, as stated, fails: the outcome for a file with an unclosed header
    is the outcome for a file without header, not a failure of its own. *)
Lemma C2_counterexample :
  first_line (content unclosed_file) = u "---"
  /\ (forall a b, content unclosed_file <> opening ++ a ++ closing ++ b)
  /\ first_line (u "no header") <> u "---"
  /\ update_agent_file FIXED_MODEL_AGENTS DYNAMIC_MODEL_AGENTS_TOOLS
       (content unclosed_file) (rel_path unclosed_file)
     = update_agent_file FIXED_MODEL_AGENTS DYNAMIC_MODEL_AGENTS_TOOLS
         (u "no header") (rel_path unclosed_file)
  /\ update_agent_file FIXED_MODEL_AGENTS DYNAMIC_MODEL_AGENTS_TOOLS
       (content unclosed_file) (rel_path unclosed_file) = Skip_no_frontmatter.
Proof.
  split; [reflexivity|]. split; [apply unclosed_no_closing; reflexivity|].
  split; [intros E; apply str_eqb_eq in E; vm_compute in E; discriminate|].
  split; reflexivity.
Qed.

(** C7, as amended: a file whose first line is not the marker is skipped
    with the no-frontmatter outcome; a file whose path is in neither
    table is skipped too, with the uncategorized outcome when its header
    was found and with the no-frontmatter outcome when it was not (that
    test comes first).  In both cases nothing is written and the text of
    the file is what it was. *)
Theorem C7_skipped_files_unchanged :
  forall (FIXED : dict config) (DYNAMIC : dict str) (content rel : str),
    first_line content <> u "---"
    \/ (dict_mem rel FIXED = false /\ dict_mem rel DYNAMIC = false) ->
    returned (update_agent_file FIXED DYNAMIC content rel) = false
    /\ file_after content (update_agent_file FIXED DYNAMIC content rel) = content
    /\ update_agent_file FIXED DYNAMIC content rel
       = match fst (parse_frontmatter content) with
         | None => Skip_no_frontmatter
         | Some _ => Warn_uncategorized
         end
    /\ (first_line content <> u "---" ->
        update_agent_file FIXED DYNAMIC content rel = Skip_no_frontmatter).
Proof.
  intros FIXED DYNAMIC content rel H.
  assert (update_agent_file FIXED DYNAMIC content rel
          = match fst (parse_frontmatter content) with
            | None => Skip_no_frontmatter
            | Some _ => Warn_uncategorized
            end) as Ho.
  { destruct H as [H | [HF HD]].
    - apply no_marker_no_match in H.
      unfold update_agent_file, parse_frontmatter. rewrite H. reflexivity.
    - unfold update_agent_file.
      destruct (parse_frontmatter content) as [[fm|] rest]; [|reflexivity].
      unfold merge_fields.
      rewrite (dict_mem_false _ _ HF), (dict_mem_false _ _ HD). reflexivity. }
  split; [|split; [|split]].
  - rewrite Ho. destruct (fst (parse_frontmatter content)); reflexivity.
  - rewrite Ho. destruct (fst (parse_frontmatter content)); reflexivity.
  - exact Ho.
  - intros Hl. apply skip_when_no_match, no_marker_no_match, Hl.
Qed.

Lemma C7_skipped_files_unchanged_witness :
  returned (update_agent_file FIXED_MODEL_AGENTS DYNAMIC_MODEL_AGENTS_TOOLS
              (opening ++ u "name: x" ++ closing ++ u "BODY") (u "notes/todo.md"))
  = false
  /\ file_after (opening ++ u "name: x" ++ closing ++ u "BODY")
       (update_agent_file FIXED_MODEL_AGENTS DYNAMIC_MODEL_AGENTS_TOOLS
          (opening ++ u "name: x" ++ closing ++ u "BODY") (u "notes/todo.md"))
     = opening ++ u "name: x" ++ closing ++ u "BODY"
  /\ update_agent_file FIXED_MODEL_AGENTS DYNAMIC_MODEL_AGENTS_TOOLS
       (opening ++ u "name: x" ++ closing ++ u "BODY") (u "notes/todo.md")
     = Warn_uncategorized.
Proof.
  destruct (C7_skipped_files_unchanged FIXED_MODEL_AGENTS DYNAMIC_MODEL_AGENTS_TOOLS
              (opening ++ u "name: x" ++ closing ++ u "BODY") (u "notes/todo.md"))
    as (H1 & H2 & H3 & _).
  - right. split; vm_compute; reflexivity.
  - split; [exact H1|]. split; [exact H2|]. exact H3.
Defined.

(** C7, as stated, fails: a path in neither table does not always give
    the uncategorized outcome; without a header the outcome is the
    no-frontmatter one. *)
Lemma C7_counterexample :
  dict_mem (u "notes/todo.md") FIXED_MODEL_AGENTS = false
  /\ dict_mem (u "notes/todo.md") DYNAMIC_MODEL_AGENTS_TOOLS = false
  /\ update_agent_file FIXED_MODEL_AGENTS DYNAMIC_MODEL_AGENTS_TOOLS
       (u "BODY") (u "notes/todo.md") = Skip_no_frontmatter
  /\ update_agent_file FIXED_MODEL_AGENTS DYNAMIC_MODEL_AGENTS_TOOLS
       (u "BODY") (u "notes/todo.md") <> Warn_uncategorized.
Proof.
  split; [reflexivity|]. split; [reflexivity|].
  split; [reflexivity | discriminate].
Qed.

(** ** The merged fields *)

(** The dict [new_fm] has one of three shapes. *)
Lemma merge_fields_shape (FIXED : dict config) (DYNAMIC : dict str)
    (fm : dict str) (rel : str) (s : strategy) (new_fm : dict str) :
  merge_fields FIXED DYNAMIC fm rel = Some (s, new_fm) ->
  (exists cfg,
      dict_get rel FIXED = Some cfg /\ s = fixed
      /\ new_fm
         = [(u "name", dict_get_default (u "name") fm []);
            (u "description", dict_get_default (u "description") fm []);
            (u "model", dict_get_default (u "model") fm (u "sonnet"));
            (u "tools", tools cfg)]
           ++ match memory cfg with
              | Some m => [(u "memory", m)]
              | None => []
              end)
  \/ (dict_get rel FIXED = None
      /\ exists t,
          dict_get rel DYNAMIC = Some t /\ s = dynamic
          /\ new_fm
             = [(u "name", dict_get_default (u "name") fm []);
                (u "description", dict_get_default (u "description") fm []);
                (u "tools", t)]).
Proof.
  unfold merge_fields.
  destruct (dict_get rel FIXED) as [cfg|] eqn:EF.
  - intros H; inversion H; subst; clear H. left. exists cfg.
    split; [reflexivity|]. split; [reflexivity|].
    destruct (memory cfg); reflexivity.
  - destruct (dict_get rel DYNAMIC) as [t|] eqn:ED; [|discriminate].
    intros H; inversion H; subst; clear H. right.
    split; [reflexivity|]. exists t. repeat split; reflexivity.
Qed.

(** Every key of [new_fm] is one of the five keys of [order]; the second
    loop of [build_frontmatter] then adds no line, and the header is
    the marker lines around the lines of the first loop. *)
Lemma merged_keys_in_order :
  forall (FIXED : dict config) (DYNAMIC : dict str) (fm : dict str) (rel : str)
         (s : strategy) (new_fm : dict str),
    merge_fields FIXED DYNAMIC fm rel = Some (s, new_fm) ->
    (forall k, In k (dict_keys new_fm) -> In k order)
    /\ remaining_lines new_fm = []
    /\ build_frontmatter new_fm
       = join NL ([u "---"] ++ ordered_lines new_fm ++ [u "---"]) ++ [NL].
Proof.
  intros FIXED DYNAMIC fm rel s new_fm H.
  assert ((forall k, In k (dict_keys new_fm) -> In k order)
          /\ remaining_lines new_fm = []) as [Hk Hr].
  { apply merge_fields_shape in H
      as [(cfg & _ & _ & ->) | (_ & t & _ & _ & ->)].
    - destruct (memory cfg); (split; [simpl; tauto | reflexivity]).
    - split; [simpl; tauto | reflexivity]. }
  split; [exact Hk|]. split; [exact Hr|].
  unfold build_frontmatter. rewrite Hr. reflexivity.
Qed.

(** ** The scenario of the specification *)

(** C5: for a path whose entry in the fixed table has the tools
    [Read, Write] and the memory [project], the scenario input is
    rewritten to the scenario output: the missing [model] gets the
    default [sonnet] and the description is put in double quotes. *)
Theorem C5_scenario_fixed :
  forall (FIXED : dict config) (DYNAMIC : dict str) (rel : str),
    dict_get rel FIXED
    = Some {| tools := u "Read, Write"; memory := Some (u "project") |} ->
    update_agent_file FIXED DYNAMIC scenario_input rel
    = Ok_written fixed scenario_output.
Proof.
  intros FIXED DYNAMIC rel H.
  unfold update_agent_file.
  replace (parse_frontmatter scenario_input)
    with (Some [(u "name", u "foo"); (u "description", u "bar")], u "BODY" ++ [NL])
    by (vm_compute; reflexivity).
  unfold merge_fields. rewrite H. vm_compute. reflexivity.
Qed.

Lemma C5_scenario_fixed_witness :
  update_agent_file
    [fixed_item_memory "docs/example.md" "Read, Write" "project"] []
    scenario_input (u "docs/example.md")
  = Ok_written fixed scenario_output.
Proof.
  apply (C5_scenario_fixed
           [fixed_item_memory "docs/example.md" "Read, Write" "project"] []
           (u "docs/example.md")).
  reflexivity.
Defined.

(** ** Stripping *)

Section Strip.
Variable p : char -> bool.

Lemma lstrip_id (s : str) : first_ok p s = true -> lstrip p s = s.
Proof.
  destruct s as [|c s]; [reflexivity|]. simpl.
  destruct (p c); [discriminate | reflexivity].
Qed.

Lemma rstrip_id (s : str) : last_ok p s = true -> rstrip p s = s.
Proof.
  unfold last_ok, rstrip. intros H.
  rewrite (lstrip_id _ H). apply rev_involutive.
Qed.

Lemma strip_id (s : str) :
  first_ok p s = true -> last_ok p s = true -> strip p s = s.
Proof.
  intros Hf Hl. unfold strip. rewrite (lstrip_id _ Hf). apply rstrip_id, Hl.
Qed.

Lemma first_ok_app (a b : str) :
  a <> [] -> first_ok p (a ++ b) = first_ok p a.
Proof. destruct a; [congruence | reflexivity]. Qed.

Lemma last_ok_app (a b : str) :
  b <> [] -> last_ok p (a ++ b) = last_ok p b.
Proof.
  intros H. unfold last_ok. rewrite rev_app_distr.
  apply first_ok_app. intros E. apply H.
  rewrite <- (rev_involutive b), E. reflexivity.
Qed.

(** What [lstrip] removes is a run of characters of the class, and
    what it leaves does not begin with one. *)
Lemma lstrip_decomp (s : str) :
  exists a,
    s = a ++ lstrip p s /\ forallb p a = true
    /\ first_ok p (lstrip p s) = true.
Proof.
  induction s as [|c s (a & E & Ha & Hf)].
  - exists []. repeat split.
  - simpl. destruct (p c) eqn:Ec.
    + exists (c :: a). simpl. rewrite Ec, Ha, <- E. repeat split. exact Hf.
    + exists []. simpl. rewrite Ec. repeat split.
Qed.

Lemma forallb_rev (a : str) : forallb p (rev a) = forallb p a.
Proof.
  induction a as [|c a IH]; [reflexivity|].
  simpl. rewrite forallb_app, IH. simpl.
  rewrite andb_true_r. apply andb_comm.
Qed.

Lemma rstrip_decomp (s : str) :
  exists b,
    s = rstrip p s ++ b /\ forallb p b = true
    /\ last_ok p (rstrip p s) = true.
Proof.
  destruct (lstrip_decomp (rev s)) as (a & E & Ha & Hf).
  exists (rev a). unfold rstrip, last_ok. split; [|split].
  - rewrite <- rev_app_distr, <- E. symmetry; apply rev_involutive.
  - rewrite forallb_rev. exact Ha.
  - rewrite rev_involutive. exact Hf.
Qed.

Lemma strip_decomp (s : str) :
  exists a b,
    s = a ++ strip p s ++ b /\ forallb p a = true /\ forallb p b = true
    /\ first_ok p (strip p s) = true /\ last_ok p (strip p s) = true.
Proof.
  destruct (lstrip_decomp s) as (a & Ea & Ha & Hf).
  destruct (rstrip_decomp (lstrip p s)) as (b & Eb & Hb & Hl).
  exists a, b. unfold strip. repeat split; try assumption.
  - rewrite <- Eb. exact Ea.
  - rewrite Eb in Hf. destruct (rstrip p (lstrip p s)); [reflexivity|exact Hf].
Qed.

Lemma strip_incl (s : str) : incl (strip p s) s.
Proof.
  destruct (strip_decomp s) as (a & b & E & _).
  intros x Hx. rewrite E. apply in_or_app; right. apply in_or_app; left.
  exact Hx.
Qed.
End Strip.

Lemma first_ok_weaken (p q : char -> bool) (s : str) :
  (forall c, q c = true -> p c = true) ->
  first_ok p s = true -> first_ok q s = true.
Proof.
  intros H. destruct s as [|c s]; [reflexivity|]. simpl.
  destruct (q c) eqn:E; [|reflexivity]. rewrite (H c E). discriminate.
Qed.

Lemma last_ok_weaken (p q : char -> bool) (s : str) :
  (forall c, q c = true -> p c = true) ->
  last_ok p s = true -> last_ok q s = true.
Proof. intros H. apply first_ok_weaken, H. Qed.

Lemma strip_ws_space (v : str) : strip_ws (SPACE :: v) = strip_ws v.
Proof. reflexivity. Qed.

(** The class of [strip_chars]: a one-character set is that character. *)
Lemma in_dquote (c : char) : contains c [DQUOTE] = true -> isquote c = true.
Proof.
  unfold contains, isquote. simpl. rewrite orb_false_r.
  intros ->. reflexivity.
Qed.

Lemma in_squote (c : char) : contains c [SQUOTE] = true -> isquote c = true.
Proof.
  unfold contains, isquote. simpl. rewrite orb_false_r.
  intros ->. apply orb_true_r.
Qed.

(** ** The value read back from a written line *)

Lemma unquoted_strip_chars (q : str) (d : str) :
  (forall c, contains c q = true -> isquote c = true) ->
  unquoted d = true -> strip_chars q d = d.
Proof.
  intros Hq H. apply andb_true_iff in H as [Hf Hl].
  apply strip_id.
  - exact (first_ok_weaken _ _ _ Hq Hf).
  - exact (last_ok_weaken _ _ _ Hq Hl).
Qed.

Lemma bare_unquoted (v : str) : bare v = true -> unquoted v = true.
Proof.
  unfold bare, unquoted. intros H. apply andb_true_iff in H as [Hf Hl].
  apply andb_true_iff; split.
  - apply (first_ok_weaken _ _ _ (fun c E => orb_true_intro _ _ (or_intror E)) Hf).
  - apply (last_ok_weaken _ _ _ (fun c E => orb_true_intro _ _ (or_intror E)) Hl).
Qed.

Lemma parse_value_bare (v : str) :
  bare v = true -> parse_value (SPACE :: v) = v.
Proof.
  intros H. unfold parse_value. rewrite strip_ws_space.
  assert (strip_ws v = v) as ->.
  { apply andb_true_iff in H as [Hf Hl]. apply strip_id.
    - apply (first_ok_weaken _ _ _ (fun c E => orb_true_intro _ _ (or_introl E)) Hf).
    - apply (last_ok_weaken _ _ _ (fun c E => orb_true_intro _ _ (or_introl E)) Hl). }
  apply bare_unquoted in H.
  rewrite (unquoted_strip_chars _ _ in_dquote H).
  apply (unquoted_strip_chars _ _ in_squote H).
Qed.

Lemma parse_value_quoted (d : str) :
  unquoted d = true -> parse_value (SPACE :: [DQUOTE] ++ d ++ [DQUOTE]) = d.
Proof.
  intros H. unfold parse_value. rewrite strip_ws_space.
  assert (strip_ws ([DQUOTE] ++ d ++ [DQUOTE]) = [DQUOTE] ++ d ++ [DQUOTE]) as ->.
  { apply strip_id; [reflexivity|].
    change ([DQUOTE] ++ d ++ [DQUOTE]) with ((DQUOTE :: d) ++ [DQUOTE]).
    unfold last_ok. rewrite rev_unit. reflexivity. }
  assert (strip_chars [DQUOTE] ([DQUOTE] ++ d ++ [DQUOTE]) = d) as ->.
  { pose proof H as H'. apply andb_true_iff in H' as [Hf Hl].
    unfold strip_chars, strip.
    change (lstrip (fun c => contains c [DQUOTE]) ([DQUOTE] ++ d ++ [DQUOTE]))
      with (lstrip (fun c => contains c [DQUOTE]) (d ++ [DQUOTE])).
    destruct d as [|c d]; [reflexivity|].
    rewrite lstrip_id.
    2:{ apply (first_ok_weaken isquote _ _ in_dquote). exact Hf. }
    unfold rstrip. rewrite rev_unit.
    change (lstrip (fun c0 => contains c0 [DQUOTE]) (DQUOTE :: rev (c :: d)))
      with (lstrip (fun c0 => contains c0 [DQUOTE]) (rev (c :: d))).
    apply (rstrip_id (fun c0 => contains c0 [DQUOTE])).
    apply (last_ok_weaken _ _ _ in_dquote Hl). }
  apply (unquoted_strip_chars _ _ in_squote H).
Qed.

(** ** Lines *)

Lemma contains_cons (c x : char) (s : str) :
  contains c (x :: s) = (c =? x) || contains c s.
Proof. reflexivity. Qed.

Lemma split_no_sep (l : str) : contains NL l = false -> split NL l = [l].
Proof.
  induction l as [|c l IH]; [reflexivity|].
  rewrite contains_cons. intros H. apply orb_false_iff in H as [Hc Hl].
  cbn [split]. rewrite N.eqb_sym, Hc, (IH Hl). reflexivity.
Qed.

Lemma split_app (l s : str) :
  contains NL l = false -> split NL (l ++ NL :: s) = l :: split NL s.
Proof.
  induction l as [|c l IH]; [reflexivity|].
  rewrite contains_cons. intros H. apply orb_false_iff in H as [Hc Hl].
  cbn [split app]. rewrite N.eqb_sym, Hc, (IH Hl). reflexivity.
Qed.

Lemma join_cons (l l' : str) (ls : list str) :
  join NL (l :: l' :: ls) = l ++ NL :: join NL (l' :: ls).
Proof. reflexivity. Qed.

Lemma split_join (l : str) (ls : list str) :
  Forall (fun x => contains NL x = false) (l :: ls) ->
  split NL (join NL (l :: ls)) = l :: ls.
Proof.
  revert l; induction ls as [|l' ls IH]; intros l H.
  - apply split_no_sep. inversion H; assumption.
  - rewrite join_cons. inversion H; subst.
    rewrite split_app by assumption. f_equal. apply IH. assumption.
Qed.

(** No line of a split text holds a newline. *)
Lemma split_lines (s : str) :
  Forall (fun l => contains NL l = false) (split NL s).
Proof.
  induction s as [|c s IH]; cbn [split].
  - constructor; [reflexivity | constructor].
  - destruct (c =? NL) eqn:E.
    + constructor; [reflexivity | exact IH].
    + destruct (split NL s) as [|l ls]; [constructor; [|constructor]|].
      * rewrite contains_cons, N.eqb_sym, E. reflexivity.
      * inversion IH; subst. constructor; [|assumption].
        rewrite contains_cons, N.eqb_sym, E. assumption.
Qed.

Lemma first_ok_join (p : char -> bool) (l : str) (ls : list str) :
  l <> [] -> first_ok p (join NL (l :: ls)) = first_ok p l.
Proof.
  intros H. destruct ls as [|l' ls]; [reflexivity|].
  rewrite join_cons. apply first_ok_app, H.
Qed.

Lemma last_ok_join (p : char -> bool) (ls : list str) (l : str) :
  l <> [] -> last_ok p (join NL (ls ++ [l])) = last_ok p l.
Proof.
  intros H. induction ls as [|l0 ls IH]; [reflexivity|].
  destruct ls as [|l1 ls].
  - simpl. change (l0 ++ NL :: l) with (l0 ++ [NL] ++ l).
    rewrite app_assoc. apply last_ok_app, H.
  - change ((l0 :: l1 :: ls) ++ [l]) with (l0 :: l1 :: (ls ++ [l])).
    rewrite join_cons.
    change (l0 ++ NL :: join NL (l1 :: ls ++ [l]))
      with (l0 ++ [NL] ++ join NL ((l1 :: ls) ++ [l])).
    rewrite app_assoc, last_ok_app; [exact IH|].
    destruct ls; simpl; [destruct l1 | destruct l1]; discriminate.
Qed.

(** ** One header line *)

Lemma partition_first (k v : str) :
  contains COLON k = false -> partition COLON (k ++ COLON :: v) = (k, [COLON], v).
Proof.
  induction k as [|c k IH]; [reflexivity|].
  rewrite contains_cons. intros H. apply orb_false_iff in H as [Hc Hk].
  cbn [partition app]. rewrite N.eqb_sym, Hc, (IH Hk). reflexivity.
Qed.

Lemma partition_parts (c : char) (s a m b : str) :
  partition c s = (a, m, b) -> s = a ++ m ++ b.
Proof.
  revert a m b; induction s as [|x s IH]; intros a m b; simpl.
  - intros H; inversion H; reflexivity.
  - destruct (x =? c) eqn:E.
    + apply N.eqb_eq in E; subst x. intros H; inversion H; reflexivity.
    + destruct (partition c s) as [[a' m'] b'].
      intros H; inversion H; subst. simpl. f_equal. apply IH. reflexivity.
Qed.

Lemma parse_line_kv (fm : dict str) (k v : str) :
  contains COLON k = false ->
  parse_line fm (k ++ COLON :: v) = dict_set (strip_ws k) (parse_value v) fm.
Proof.
  intros H. unfold parse_line.
  rewrite contains_app. replace (contains COLON (COLON :: v)) with true by reflexivity.
  rewrite orb_true_r, (partition_first _ _ H). reflexivity.
Qed.

(** A line that [build_frontmatter] writes for a key. *)
Lemma parse_line_field (fm : dict str) (k v : str) :
  contains COLON k = false -> strip_ws k = k ->
  parse_line fm (k ++ u ": " ++ v) = dict_set k (parse_value (SPACE :: v)) fm.
Proof.
  intros Hc Hk.
  change (k ++ u ": " ++ v) with (k ++ COLON :: SPACE :: v).
  rewrite (parse_line_kv _ _ _ Hc), Hk. reflexivity.
Qed.

(** ** Reading back a header that [build_frontmatter] wrote *)

Lemma lazy_until_closing_hit (r : str) :
  lazy_until closing (closing ++ r) = Some ([], r).
Proof. reflexivity. Qed.

Lemma lazy_until_closing_skip (l s : str) :
  contains NL l = false ->
  lazy_until closing (l ++ s)
  = match lazy_until closing s with
    | Some (g, r) => Some (l ++ g, r)
    | None => None
    end.
Proof.
  induction l as [|c l IH].
  - intros _. simpl app. destruct (lazy_until closing s) as [[g r]|]; reflexivity.
  - rewrite contains_cons. intros H. apply orb_false_iff in H as [Hc Hl].
    cbn [app lazy_until].
    change closing with [NL; DASH; DASH; DASH; NL].
    cbn [startswith]. rewrite Hc. cbn [andb].
    change [NL; DASH; DASH; DASH; NL] with closing.
    rewrite (IH Hl). destruct (lazy_until closing s) as [[g r]|]; reflexivity.
Qed.

Lemma lazy_until_closing_line (c : char) (s : str) :
  (c =? DASH) = false ->
  lazy_until closing (NL :: c :: s)
  = match lazy_until closing (c :: s) with
    | Some (g, r) => Some (NL :: g, r)
    | None => None
    end.
Proof.
  intros H. cbn [lazy_until].
  change closing with [NL; DASH; DASH; DASH; NL] at 1.
  cbn [startswith]. rewrite (N.eqb_sym DASH c), H, andb_false_r.
  reflexivity.
Qed.

Lemma lazy_until_header_tail (ls : list str) (rest : str) :
  forallb line_ok ls = true ->
  lazy_until closing (header_tail ls rest)
  = Some (List.concat (map (cons NL) ls), rest).
Proof.
  induction ls as [|l ls IH]; intros H.
  - apply lazy_until_closing_hit.
  - cbn [forallb] in H. apply andb_true_iff in H as [Hl Hls].
    unfold line_ok in Hl. apply andb_true_iff in Hl as [Hnl Hc].
    apply negb_true_iff in Hnl.
    destruct l as [|c l]; [discriminate|]. apply negb_true_iff in Hc.
    cbn [header_tail]. change ((c :: l) ++ header_tail ls rest)
      with (c :: (l ++ header_tail ls rest)).
    rewrite (lazy_until_closing_line _ _ Hc).
    change (c :: (l ++ header_tail ls rest))
      with ((c :: l) ++ header_tail ls rest).
    rewrite (lazy_until_closing_skip _ _ Hnl), (IH Hls). reflexivity.
Qed.

Lemma join_as_concat (l : str) (ls : list str) :
  join NL (l :: ls) = l ++ List.concat (map (cons NL) ls).
Proof.
  revert l; induction ls as [|l' ls IH]; intros l.
  - simpl. symmetry; apply app_nil_r.
  - rewrite join_cons, IH. reflexivity.
Qed.

Lemma join_header_tail (l : str) (ls : list str) (rest : str) :
  (join NL ((l :: ls) ++ [u "---"]) ++ [NL]) ++ rest = l ++ header_tail ls rest.
Proof.
  revert l; induction ls as [|l' ls IH]; intros l.
  - cbn [app join header_tail]. rewrite <- !app_assoc. reflexivity.
  - change ((l :: l' :: ls) ++ [u "---"]) with (l :: l' :: (ls ++ [u "---"])).
    rewrite join_cons. cbn [header_tail]. rewrite <- !app_assoc.
    f_equal. cbn [app]. f_equal.
    rewrite <- IH. rewrite <- !app_assoc. reflexivity.
Qed.

Lemma built_text (l : str) (ls : list str) (rest : str) :
  (join NL ([u "---"] ++ (l :: ls) ++ [u "---"]) ++ [NL]) ++ rest
  = opening ++ l ++ header_tail ls rest.
Proof.
  change ([u "---"] ++ (l :: ls) ++ [u "---"])
    with (u "---" :: l :: (ls ++ [u "---"])).
  rewrite join_cons. rewrite <- (join_header_tail l ls rest).
  unfold opening. rewrite <- !app_assoc. reflexivity.
Qed.

Lemma line_ok_nonempty (l : str) : line_ok l = true -> l <> [].
Proof.
  destruct l; [|discriminate].
  unfold line_ok. rewrite andb_false_r. discriminate.
Qed.

Lemma line_ok_one_line (l : str) : line_ok l = true -> contains NL l = false.
Proof.
  unfold line_ok. intros H. apply andb_true_iff in H as [H _].
  apply negb_true_iff, H.
Qed.

(** The parser finds the lines that were written and the body that
    follows them. *)
Lemma parse_built (l : str) (ls : list str) (rest : str) :
  forallb line_ok (l :: ls) = true ->
  first_ok isspace l = true ->
  last_ok isspace (last (l :: ls) []) = true ->
  parse_frontmatter
    ((join NL ([u "---"] ++ (l :: ls) ++ [u "---"]) ++ [NL]) ++ rest)
  = (Some (fold_left parse_line (l :: ls) []), rest).
Proof.
  intros Hok Hf Hl. rewrite built_text.
  unfold parse_frontmatter, re_match. rewrite startswith_prefix.
  replace (skipn (List.length opening) (opening ++ l ++ header_tail ls rest))
    with (l ++ header_tail ls rest) by reflexivity.
  pose proof Hok as Hok'. cbn [forallb] in Hok'.
  apply andb_true_iff in Hok' as [Hl0 Hls].
  rewrite (lazy_until_closing_skip _ _ (line_ok_one_line _ Hl0)).
  rewrite (lazy_until_header_tail _ _ Hls).
  rewrite <- join_as_concat.
  assert (strip_ws (join NL (l :: ls)) = join NL (l :: ls)) as ->.
  { apply strip_id.
    - rewrite first_ok_join; [exact Hf | exact (line_ok_nonempty _ Hl0)].
    - assert (l :: ls <> []) as Hne by discriminate.
      rewrite (app_removelast_last [] Hne).
      rewrite last_ok_join; [exact Hl|].
      apply line_ok_nonempty.
      rewrite forallb_forall in Hok. apply Hok.
      rewrite (app_removelast_last [] Hne) at 2.
      apply in_or_app; right; left; reflexivity. }
  rewrite split_join; [reflexivity|].
  apply Forall_forall. intros x Hx. apply line_ok_one_line.
  rewrite forallb_forall in Hok. apply Hok, Hx.
Qed.

(** ** The values the parser stores hold no newline *)

Lemma parse_value_incl (v : str) : incl (parse_value v) v.
Proof.
  unfold parse_value, strip_chars, strip_ws.
  eapply incl_tran; [apply strip_incl|].
  eapply incl_tran; [apply strip_incl|]. apply strip_incl.
Qed.

Lemma dict_set_values {V} (P : V -> Prop) (k : str) (v : V) (d : dict V) :
  P v -> Forall (fun kv => P (snd kv)) d ->
  Forall (fun kv => P (snd kv)) (dict_set k v d).
Proof.
  intros Hv. induction d as [|[k' v'] d IH]; intros H; cbn [dict_set].
  - constructor; [exact Hv | constructor].
  - inversion H; subst. destruct (str_eqb k k').
    + constructor; [exact Hv | assumption].
    + constructor; [assumption | apply IH; assumption].
Qed.

Lemma parse_line_one_line (fm : dict str) (line : str) :
  contains NL line = false ->
  Forall (fun kv => contains NL (snd kv) = false) fm ->
  Forall (fun kv => contains NL (snd kv) = false) (parse_line fm line).
Proof.
  intros Hl Hfm. unfold parse_line.
  destruct (contains COLON line); [|exact Hfm].
  destruct (partition COLON line) as [[key m] value] eqn:E.
  apply (dict_set_values (fun v => contains NL v = false)); [|exact Hfm].
  apply partition_parts in E.
  apply (contains_incl NL line); [|exact Hl].
  eapply incl_tran; [apply parse_value_incl|].
  rewrite E. intros x Hx. apply in_or_app; right. apply in_or_app; right.
  exact Hx.
Qed.

Lemma fold_parse_line_one_line (lines : list str) (fm : dict str) :
  Forall (fun l => contains NL l = false) lines ->
  Forall (fun kv => contains NL (snd kv) = false) fm ->
  Forall (fun kv => contains NL (snd kv) = false) (fold_left parse_line lines fm).
Proof.
  revert fm; induction lines as [|l lines IH]; intros fm Hl Hfm; [exact Hfm|].
  inversion Hl; subst. cbn [fold_left]. apply IH; [assumption|].
  apply parse_line_one_line; assumption.
Qed.

Lemma parsed_values_one_line (content : str) (fm : dict str) (rest : str) :
  parse_frontmatter content = (Some fm, rest) ->
  forall k d, contains NL d = false ->
              contains NL (dict_get_default k fm d) = false.
Proof.
  unfold parse_frontmatter.
  destruct (re_match content) as [[fm_text r]|]; [|discriminate].
  intros H; inversion H; subst; clear H. intros k d Hd.
  unfold dict_get_default.
  destruct (dict_get k _) as [v|] eqn:E; [|exact Hd].
  apply dict_get_In in E.
  pose proof (fold_parse_line_one_line (split NL (strip_ws fm_text)) []
                (split_lines _) (Forall_nil _)) as HF.
  rewrite Forall_forall in HF. exact (HF _ E).
Qed.

Lemma parsed_rest (content : str) (fm : dict str) (rest : str) :
  parse_frontmatter content = (Some fm, rest) ->
  exists fm_text, content = opening ++ fm_text ++ closing ++ rest.
Proof.
  unfold parse_frontmatter.
  destruct (re_match content) as [[fm_text r]|] eqn:E; [|discriminate].
  intros H; inversion H; subst; clear H.
  exists fm_text. apply re_match_opening, E.
Qed.

(** ** The lines of a rewritten header *)

Lemma line_ok_app (k x : str) :
  line_ok k = true -> contains NL x = false -> line_ok (k ++ x) = true.
Proof.
  intros Hk Hx. pose proof (line_ok_one_line _ Hk) as Hnl.
  destruct k as [|c k]; [apply line_ok_nonempty in Hk; congruence|].
  unfold line_ok in *. rewrite contains_app, Hnl, Hx.
  apply andb_true_iff in Hk as [_ Hc]. exact Hc.
Qed.

Lemma line_ok_plain (k v : str) :
  line_ok k = true -> contains NL v = false ->
  line_ok (k ++ u ": " ++ v) = true.
Proof.
  intros Hk Hv. apply line_ok_app; [exact Hk|].
  rewrite contains_app, Hv. reflexivity.
Qed.

Lemma line_ok_quoted (k v : str) :
  line_ok k = true -> contains NL v = false ->
  line_ok (k ++ u ": " ++ [DQUOTE] ++ v ++ [DQUOTE]) = true.
Proof.
  intros Hk Hv. apply line_ok_app; [exact Hk|].
  rewrite !contains_app, Hv. reflexivity.
Qed.

Lemma last_ok_field (k v : str) :
  v <> [] -> last_ok isspace v = true ->
  last_ok isspace (k ++ u ": " ++ v) = true.
Proof.
  intros Hne Hv.
  rewrite last_ok_app by (destruct v; [congruence | discriminate]).
  rewrite last_ok_app by exact Hne. exact Hv.
Qed.

Lemma value_ok_parts (v : str) :
  value_ok v = true ->
  contains NL v = false /\ v <> [] /\ bare v = true /\ last_ok isspace v = true.
Proof.
  unfold value_ok. intros H.
  apply andb_true_iff in H as [H Hb]. apply andb_true_iff in H as [Hnl Hne].
  apply negb_true_iff in Hnl. apply negb_true_iff in Hne.
  repeat split; try assumption.
  - intros ->. discriminate.
  - apply andb_true_iff in Hb as [_ Hl].
    apply (last_ok_weaken _ _ _ (fun c E => orb_true_intro _ _ (or_introl E)) Hl).
Qed.

Section Rewrite.
Variable FIXED : dict config.
Variable DYNAMIC : dict str.
Hypothesis tables_wf : tables_ok FIXED DYNAMIC = true.

Lemma fixed_entry_ok (rel : str) (cfg : config) :
  dict_get rel FIXED = Some cfg ->
  value_ok (tools cfg) = true
  /\ forall m, memory cfg = Some m -> value_ok m = true.
Proof.
  intros H. apply dict_get_In in H.
  unfold tables_ok in tables_wf. apply andb_true_iff in tables_wf as [HF _].
  rewrite forallb_forall in HF. specialize (HF _ H). cbn [snd] in HF.
  apply andb_true_iff in HF as [Ht Hm]. split; [exact Ht|].
  intros m E. rewrite E in Hm. exact Hm.
Qed.

Lemma dynamic_entry_ok (rel t : str) :
  dict_get rel DYNAMIC = Some t -> value_ok t = true.
Proof.
  intros H. apply dict_get_In in H.
  unfold tables_ok in tables_wf. apply andb_true_iff in tables_wf as [_ HD].
  rewrite forallb_forall in HD. exact (HD _ H).
Qed.

(** The header that is written is read back as [reread new_fm], and
    the body that follows it is the body that was appended. *)
Lemma reparse (fm : dict str) (rel : str) (s : strategy)
    (new_fm : dict str) (rest : str) :
  contains NL (dict_get_default (u "name") fm []) = false ->
  contains NL (dict_get_default (u "description") fm []) = false ->
  contains NL (dict_get_default (u "model") fm (u "sonnet")) = false ->
  merge_fields FIXED DYNAMIC fm rel = Some (s, new_fm) ->
  parse_frontmatter (build_frontmatter new_fm ++ rest)
  = (Some (reread new_fm), rest).
Proof.
  intros Hn Hd Hm H.
  apply merge_fields_shape in H
    as [(cfg & EF & _ & ->) | (_ & t & ED & _ & ->)].
  - destruct (fixed_entry_ok _ _ EF) as [Ht Hmem].
    apply value_ok_parts in Ht as (Ht1 & Ht2 & _ & Ht4).
    revert Hn Hd Hm.
    generalize (dict_get_default (u "name") fm []).
    generalize (dict_get_default (u "description") fm []).
    generalize (dict_get_default (u "model") fm (u "sonnet")).
    intros m d n Hn Hd Hm.
    destruct (memory cfg) as [p|] eqn:Ep.
    + pose proof (Hmem p eq_refl) as Hp.
      apply value_ok_parts in Hp as (Hp1 & Hp2 & _ & Hp4).
      change (build_frontmatter
                ([(u "name", n); (u "description", d); (u "model", m);
                  (u "tools", tools cfg)] ++ [(u "memory", p)]))
        with (join NL
                ([u "---"]
                 ++ [u "name" ++ u ": " ++ n;
                     u "description" ++ u ": " ++ [DQUOTE] ++ d ++ [DQUOTE];
                     u "model" ++ u ": " ++ m;
                     u "tools" ++ u ": " ++ tools cfg;
                     u "memory" ++ u ": " ++ p]
                 ++ [u "---"]) ++ [NL]).
      rewrite parse_built.
      * cbn [fold_left].
        rewrite !parse_line_field by reflexivity. reflexivity.
      * cbn [forallb].
        rewrite line_ok_quoted, !line_ok_plain by (assumption || reflexivity).
        reflexivity.
      * reflexivity.
      * cbn [last]. apply last_ok_field; assumption.
    + change (build_frontmatter
                ([(u "name", n); (u "description", d); (u "model", m);
                  (u "tools", tools cfg)] ++ []))
        with (join NL
                ([u "---"]
                 ++ [u "name" ++ u ": " ++ n;
                     u "description" ++ u ": " ++ [DQUOTE] ++ d ++ [DQUOTE];
                     u "model" ++ u ": " ++ m;
                     u "tools" ++ u ": " ++ tools cfg]
                 ++ [u "---"]) ++ [NL]).
      rewrite parse_built.
      * cbn [fold_left].
        rewrite !parse_line_field by reflexivity. reflexivity.
      * cbn [forallb].
        rewrite line_ok_quoted, !line_ok_plain by (assumption || reflexivity).
        reflexivity.
      * reflexivity.
      * cbn [last]. apply last_ok_field; assumption.
  - apply dynamic_entry_ok, value_ok_parts in ED as (Ht1 & Ht2 & _ & Ht4).
    revert Hn Hd. clear Hm.
    generalize (dict_get_default (u "name") fm []).
    generalize (dict_get_default (u "description") fm []).
    intros d n Hn Hd.
    change (build_frontmatter
              [(u "name", n); (u "description", d); (u "tools", t)])
      with (join NL
              ([u "---"]
               ++ [u "name" ++ u ": " ++ n;
                   u "description" ++ u ": " ++ [DQUOTE] ++ d ++ [DQUOTE];
                   u "tools" ++ u ": " ++ t]
               ++ [u "---"]) ++ [NL]).
    rewrite parse_built.
    + cbn [fold_left].
      rewrite !parse_line_field by reflexivity. reflexivity.
    + cbn [forallb].
      rewrite line_ok_quoted, !line_ok_plain by (assumption || reflexivity).
      reflexivity.
    + reflexivity.
    + cbn [last]. apply last_ok_field; assumption.
Qed.
End Rewrite.

(** ** Rewritten files *)

Lemma repo_tables_ok :
  tables_ok FIXED_MODEL_AGENTS DYNAMIC_MODEL_AGENTS_TOOLS = true.
Proof. vm_compute. reflexivity. Qed.

Lemma dynamic_not_fixed (rel : str) :
  dict_mem rel DYNAMIC_MODEL_AGENTS_TOOLS = true ->
  dict_get rel FIXED_MODEL_AGENTS = None.
Proof.
  intros H. apply dict_mem_false.
  assert (forallb (fun k => negb (dict_mem k DYNAMIC_MODEL_AGENTS_TOOLS))
            (dict_keys FIXED_MODEL_AGENTS) = true) as Hd
      by (vm_compute; reflexivity).
  pose proof (disjoint_by_keys _ _ Hd rel) as E.
  rewrite H, andb_true_r in E. exact E.
Qed.

(** What is written and how it reads. *)
Lemma rewritten_output (FIXED : dict config) (DYNAMIC : dict str)
    (content rel : str) (fm : dict str) (rest : str) (s : strategy)
    (new_fm : dict str) :
  tables_ok FIXED DYNAMIC = true ->
  parse_frontmatter content = (Some fm, rest) ->
  merge_fields FIXED DYNAMIC fm rel = Some (s, new_fm) ->
  update_agent_file FIXED DYNAMIC content rel
  = Ok_written s (build_frontmatter new_fm ++ rest)
  /\ parse_frontmatter (build_frontmatter new_fm ++ rest)
     = (Some (reread new_fm), rest).
Proof.
  intros Htab Hp Hm. split.
  - unfold update_agent_file. rewrite Hp, Hm. reflexivity.
  - apply (reparse FIXED DYNAMIC Htab fm rel s); [| | |exact Hm];
      apply (parsed_values_one_line _ _ _ Hp); reflexivity.
Qed.

Lemma written_from_merge (FIXED : dict config) (DYNAMIC : dict str)
    (content rel : str) (fm : dict str) (rest : str) (s : strategy) (out : str) :
  parse_frontmatter content = (Some fm, rest) ->
  update_agent_file FIXED DYNAMIC content rel = Ok_written s out ->
  exists new_fm,
    merge_fields FIXED DYNAMIC fm rel = Some (s, new_fm)
    /\ out = build_frontmatter new_fm ++ rest.
Proof.
  intros Hp. unfold update_agent_file. rewrite Hp.
  destruct (merge_fields FIXED DYNAMIC fm rel) as [[s' new_fm]|]; [|discriminate].
  intros H; inversion H; subst. exists new_fm. split; reflexivity.
Qed.

(** C4: a file whose path is in the dynamic table is rewritten, the
    merged fields hold no [model] key whatever the header held, and the
    header of the text that is written, read back, holds none either. *)
Theorem C4_dynamic_output_without_model :
  forall (content rel : str) (fm : dict str) (rest : str),
    parse_frontmatter content = (Some fm, rest) ->
    dict_mem rel DYNAMIC_MODEL_AGENTS_TOOLS = true ->
    exists new_fm out fm',
      merge_fields FIXED_MODEL_AGENTS DYNAMIC_MODEL_AGENTS_TOOLS fm rel
      = Some (dynamic, new_fm)
      /\ dict_get (u "model") new_fm = None
      /\ update_agent_file FIXED_MODEL_AGENTS DYNAMIC_MODEL_AGENTS_TOOLS content rel
         = Ok_written dynamic out
      /\ parse_frontmatter out = (Some fm', rest)
      /\ dict_get (u "model") fm' = None.
Proof.
  intros content rel fm rest Hp Hd.
  pose proof (dynamic_not_fixed _ Hd) as EF.
  unfold dict_mem in Hd.
  destruct (dict_get rel DYNAMIC_MODEL_AGENTS_TOOLS) as [t|] eqn:ED; [|discriminate].
  assert (merge_fields FIXED_MODEL_AGENTS DYNAMIC_MODEL_AGENTS_TOOLS fm rel
          = Some (dynamic,
                  [(u "name", dict_get_default (u "name") fm []);
                   (u "description", dict_get_default (u "description") fm []);
                   (u "tools", t)])) as Hm.
  { unfold merge_fields. rewrite EF, ED. reflexivity. }
  destruct (rewritten_output _ _ _ _ _ _ _ _ repo_tables_ok Hp Hm) as [Hu Hr].
  eexists _, _, _. split; [exact Hm|]. split; [reflexivity|].
  split; [exact Hu|]. split; [exact Hr|]. reflexivity.
Qed.

(** C8: for a path in the fixed table, the [memory] key of the merged
    fields is the one of the table entry: absent when the entry has
    none, whatever the header held, and with the entry's value when it
    has one.  The header of the text that is written reads back the
    same. *)
Theorem C8_fixed_memory_from_policy :
  forall (content rel : str) (cfg : config) (fm : dict str) (rest : str),
    parse_frontmatter content = (Some fm, rest) ->
    dict_get rel FIXED_MODEL_AGENTS = Some cfg ->
    exists new_fm out fm',
      merge_fields FIXED_MODEL_AGENTS DYNAMIC_MODEL_AGENTS_TOOLS fm rel
      = Some (fixed, new_fm)
      /\ dict_get (u "memory") new_fm = memory cfg
      /\ update_agent_file FIXED_MODEL_AGENTS DYNAMIC_MODEL_AGENTS_TOOLS content rel
         = Ok_written fixed out
      /\ parse_frontmatter out = (Some fm', rest)
      /\ dict_get (u "memory") fm' = memory cfg.
Proof.
  intros content rel cfg fm rest Hp EF.
  assert (merge_fields FIXED_MODEL_AGENTS DYNAMIC_MODEL_AGENTS_TOOLS fm rel
          = Some (fixed,
                  [(u "name", dict_get_default (u "name") fm []);
                   (u "description", dict_get_default (u "description") fm []);
                   (u "model", dict_get_default (u "model") fm (u "sonnet"));
                   (u "tools", tools cfg)]
                  ++ match memory cfg with
                     | Some m => [(u "memory", m)]
                     | None => []
                     end)) as Hm.
  { unfold merge_fields. rewrite EF. destruct (memory cfg); reflexivity. }
  destruct (rewritten_output _ _ _ _ _ _ _ _ repo_tables_ok Hp Hm) as [Hu Hr].
  eexists _, _, _. split; [exact Hm|]. split; [|split; [exact Hu|split; [exact Hr|]]].
  - destruct (memory cfg); reflexivity.
  - destruct (fixed_entry_ok _ _ repo_tables_ok _ _ EF) as [_ Hmem].
    destruct (memory cfg) as [m|]; [|reflexivity].
    specialize (Hmem m eq_refl).
    apply value_ok_parts in Hmem as (_ & _ & Hb & _).
    transitivity (Some (parse_value (SPACE :: m))); [reflexivity|].
    rewrite (parse_value_bare _ Hb). reflexivity.
Qed.

(** ** Running the update a second time *)

(** What a strip leaves is no longer than the text, and as long only
    when nothing was removed. *)
Lemma strip_length (p : char -> bool) (s : str) :
  (List.length (strip p s) <= List.length s)%nat.
Proof.
  destruct (strip_decomp p s) as (a & b & E & _).
  rewrite E at 2. rewrite !length_app. lia.
Qed.

Lemma strip_same_length (p : char -> bool) (s : str) :
  List.length (strip p s) = List.length s -> strip p s = s.
Proof.
  destruct (strip_decomp p s) as (a & b & E & _). intros H.
  rewrite E in H at 2. rewrite !length_app in H.
  destruct a; [|simpl in H; lia]. destruct b; [|simpl in H; lia].
  rewrite E at 2. simpl. symmetry. apply app_nil_r.
Qed.

Lemma strip_fix_ends (p : char -> bool) (s : str) :
  strip p s = s -> first_ok p s = true /\ last_ok p s = true.
Proof.
  destruct (strip_decomp p s) as (a & b & _ & _ & _ & Hf & Hl).
  intros E. rewrite E in Hf, Hl. split; assumption.
Qed.

Lemma first_ok_or (p q : char -> bool) (s : str) :
  first_ok p s = true -> first_ok q s = true ->
  first_ok (fun c => p c || q c) s = true.
Proof.
  destruct s as [|c s]; [reflexivity|]. simpl.
  destruct (p c); [discriminate|]. destruct (q c); [discriminate|]. reflexivity.
Qed.

Lemma last_ok_or (p q : char -> bool) (s : str) :
  last_ok p s = true -> last_ok q s = true ->
  last_ok (fun c => p c || q c) s = true.
Proof. apply first_ok_or. Qed.

Lemma isquote_either (c : char) :
  isquote c = true -> (contains c [DQUOTE] || contains c [SQUOTE]) = true.
Proof.
  unfold isquote, contains. cbn [existsb]. rewrite !orb_false_r. tauto.
Qed.

(** A text that both quote strips leave as it is has no quote at
    either end. *)
Lemma quote_strips_fix (d : str) :
  strip_chars [SQUOTE] (strip_chars [DQUOTE] d) = d -> unquoted d = true.
Proof.
  intros H.
  pose proof (strip_length (fun c => contains c [DQUOTE]) d) as L1.
  pose proof (strip_length (fun c => contains c [SQUOTE])
                (strip_chars [DQUOTE] d)) as L2.
  fold (strip_chars [DQUOTE]) in L1. fold (strip_chars [SQUOTE]) in L2.
  assert (strip_chars [DQUOTE] d = d) as Ed.
  { apply strip_same_length. fold (strip_chars [DQUOTE]).
    rewrite H in L2. lia. }
  rewrite Ed in H.
  apply strip_fix_ends in Ed as [Hdf Hdl]. apply strip_fix_ends in H as [Hsf Hsl].
  unfold unquoted. apply andb_true_iff; split.
  - apply (first_ok_weaken _ _ _ isquote_either). apply first_ok_or; assumption.
  - apply (last_ok_weaken _ _ _ isquote_either). apply last_ok_or; assumption.
Qed.

(** A value that reads back as itself is bare. *)
Lemma parse_value_fix (v : str) : parse_value (SPACE :: v) = v -> bare v = true.
Proof.
  unfold parse_value. rewrite strip_ws_space. intros H.
  pose proof (strip_length isspace v) as L0. fold strip_ws in L0.
  pose proof (strip_length (fun c => contains c [DQUOTE]) (strip_ws v)) as L1.
  pose proof (strip_length (fun c => contains c [SQUOTE])
                (strip_chars [DQUOTE] (strip_ws v))) as L2.
  fold (strip_chars [DQUOTE]) in L1. fold (strip_chars [SQUOTE]) in L2.
  assert (strip_ws v = v) as Ew.
  { apply strip_same_length. fold strip_ws. rewrite H in L2. lia. }
  rewrite Ew in H. apply quote_strips_fix in H.
  apply strip_fix_ends in Ew as [Hwf Hwl].
  apply andb_true_iff in H as [Hqf Hql].
  unfold bare. apply andb_true_iff; split.
  - apply first_ok_or; assumption.
  - apply last_ok_or; assumption.
Qed.

(** Double quotes around a text do not change what the strip of the
    double quote leaves of it. *)
Lemma strip_wrapped (p : char -> bool) (q : char) (d : str) :
  p q = true -> strip p ([q] ++ d ++ [q]) = strip p d.
Proof.
  intros Hq. unfold strip. cbn [app lstrip]. rewrite Hq.
  assert (forall t, rstrip p (t ++ [q]) = rstrip p t) as R.
  { intros t. unfold rstrip. rewrite rev_unit. cbn [lstrip]. rewrite Hq.
    reflexivity. }
  induction d as [|c d IH].
  - cbn [app lstrip]. rewrite Hq. reflexivity.
  - cbn [app lstrip]. destruct (p c); [exact IH|].
    change (c :: d ++ [q]) with ((c :: d) ++ [q]). apply R.
Qed.

(** A value that reads back as itself from between the double quotes
    has no quote at either end. *)
Lemma parse_value_quoted_fix (d : str) :
  parse_value (SPACE :: [DQUOTE] ++ d ++ [DQUOTE]) = d -> unquoted d = true.
Proof.
  unfold parse_value. rewrite strip_ws_space.
  assert (strip_ws ([DQUOTE] ++ d ++ [DQUOTE]) = [DQUOTE] ++ d ++ [DQUOTE]) as ->.
  { apply strip_id; [reflexivity|].
    change ([DQUOTE] ++ d ++ [DQUOTE]) with ((DQUOTE :: d) ++ [DQUOTE]).
    unfold last_ok. rewrite rev_unit. reflexivity. }
  unfold strip_chars at 2. rewrite strip_wrapped by reflexivity.
  apply quote_strips_fix.
Qed.

(** The second merge carries [name], [description] and [model] over as
    they read in the written header. *)
Lemma remerge (FIXED : dict config) (DYNAMIC : dict str) (fm : dict str)
    (rel : str) (s : strategy) (new_fm : dict str) :
  merge_fields FIXED DYNAMIC fm rel = Some (s, new_fm) ->
  merge_fields FIXED DYNAMIC (reread new_fm) rel
  = Some (s, second_fields new_fm).
Proof.
  intros H.
  apply merge_fields_shape in H
    as [(cfg & EF & -> & ->) | (EF & t & ED & -> & ->)].
  - unfold merge_fields. rewrite EF. destruct (memory cfg); reflexivity.
  - unfold merge_fields. rewrite EF, ED. reflexivity.
Qed.

(** Two texts that agree up to their first newline. *)
Lemma first_newline_unique (a b x y : str) :
  contains NL a = false -> contains NL b = false ->
  a ++ NL :: x = b ++ NL :: y -> a = b /\ x = y.
Proof.
  revert b; induction a as [|c a IH]; intros [|c' b] Ha Hb E.
  - inversion E; split; reflexivity.
  - rewrite contains_cons in Hb. apply orb_false_iff in Hb as [Hc _].
    inversion E; subst c'. rewrite N.eqb_refl in Hc. discriminate.
  - rewrite contains_cons in Ha. apply orb_false_iff in Ha as [Hc _].
    inversion E; subst c. rewrite N.eqb_refl in Hc. discriminate.
  - rewrite contains_cons in Ha, Hb.
    apply orb_false_iff in Ha as [_ Ha]. apply orb_false_iff in Hb as [_ Hb].
    inversion E; subst c'. destruct (IH b Ha Hb H1) as [-> ->].
    split; reflexivity.
Qed.

Lemma reread_one_line (k v : str) :
  contains NL v = false -> contains NL (reread_value k v) = false.
Proof.
  intros Hv. unfold reread_value.
  eapply contains_incl; [apply parse_value_incl|].
  rewrite contains_cons. destruct (str_eqb k (u "description")).
  - rewrite !contains_app, Hv. reflexivity.
  - exact Hv.
Qed.

(** The header of the second update is the header of the first exactly
    when the carried values read back as themselves. *)
Lemma second_header_same (FIXED : dict config) (DYNAMIC : dict str)
    (fm : dict str) (rel : str) (s : strategy) (new_fm : dict str) :
  contains NL (dict_get_default (u "name") fm []) = false ->
  contains NL (dict_get_default (u "description") fm []) = false ->
  contains NL (dict_get_default (u "model") fm (u "sonnet")) = false ->
  merge_fields FIXED DYNAMIC fm rel = Some (s, new_fm) ->
  build_frontmatter (second_fields new_fm) = build_frontmatter new_fm
  <-> bare (dict_get_default (u "name") fm []) = true
      /\ unquoted (dict_get_default (u "description") fm []) = true
      /\ (s = fixed ->
          bare (dict_get_default (u "model") fm (u "sonnet")) = true).
Proof.
  intros Hn Hd Hm H.
  apply merge_fields_shape in H
    as [(cfg & EF & -> & ->) | (EF & t & ED & -> & ->)].
  - revert Hn Hd Hm.
    generalize (dict_get_default (u "name") fm []).
    generalize (dict_get_default (u "description") fm []).
    generalize (dict_get_default (u "model") fm (u "sonnet")).
    intros m d n Hn Hd Hm. split.
    + intros E.
      assert (reread_value (u "name") n = n
              /\ reread_value (u "description") d = d
              /\ reread_value (u "model") m = m) as (En & Ed & Em).
      { pose proof (reread_one_line (u "name") n Hn) as Hn'.
        pose proof (reread_one_line (u "description") d Hd) as Hd'.
        pose proof (reread_one_line (u "model") m Hm) as Hm'.
        destruct (memory cfg) as [p|];
          unfold build_frontmatter in E; apply app_inv_tail in E;
          cbn [second_fields map fst snd app] in E;
          injection E as E;
          apply first_newline_unique in E as [En E]; try assumption;
          injection E as E;
          apply first_newline_unique in E as [Ed E];
          try (rewrite contains_app, ?Hd, ?Hd'; reflexivity);
          apply app_inv_tail in Ed;
          injection E as E;
          apply first_newline_unique in E as [Em E]; try assumption;
          repeat split; assumption. }
      split; [apply parse_value_fix, En|].
      split; [apply parse_value_quoted_fix, Ed|].
      intros _. apply parse_value_fix, Em.
    + intros (Bn & Bd & Bm). specialize (Bm eq_refl).
      assert (reread_value (u "name") n = n) as En
          by (apply parse_value_bare, Bn).
      assert (reread_value (u "description") d = d) as Ed
          by (apply parse_value_quoted, Bd).
      assert (reread_value (u "model") m = m) as Em
          by (apply parse_value_bare, Bm).
      destruct (memory cfg) as [p|];
        cbn [second_fields map fst snd app];
        change (carried (u "name")) with true;
        change (carried (u "description")) with true;
        change (carried (u "model")) with true;
        change (carried (u "tools")) with false;
        change (carried (u "memory")) with false;
        cbv iota; rewrite En, Ed, Em; reflexivity.
  - clear Hm. revert Hn Hd.
    generalize (dict_get_default (u "name") fm []).
    generalize (dict_get_default (u "description") fm []).
    intros d n Hn Hd. split.
    + intros E.
      assert (reread_value (u "name") n = n
              /\ reread_value (u "description") d = d) as (En & Ed).
      { pose proof (reread_one_line (u "name") n Hn) as Hn'.
        pose proof (reread_one_line (u "description") d Hd) as Hd'.
        unfold build_frontmatter in E; apply app_inv_tail in E.
        cbn [second_fields map fst snd app] in E.
        injection E as E.
        apply first_newline_unique in E as [En E]; try assumption.
        injection E as E.
        apply first_newline_unique in E as [Ed E];
          try (rewrite contains_app, ?Hd, ?Hd'; reflexivity).
        apply app_inv_tail in Ed.
        split; assumption. }
      split; [apply parse_value_fix, En|].
      split; [apply parse_value_quoted_fix, Ed|].
      intros Hs; discriminate.
    + intros (Bn & Bd & _).
      assert (reread_value (u "name") n = n) as En
          by (apply parse_value_bare, Bn).
      assert (reread_value (u "description") d = d) as Ed
          by (apply parse_value_quoted, Bd).
      cbn [second_fields map fst snd app].
      change (carried (u "name")) with true.
      change (carried (u "description")) with true.
      change (carried (u "tools")) with false.
      cbv iota. rewrite En, Ed. reflexivity.
Qed.

(** C1, as amended: the second update of a file writes the text that the
    first update wrote exactly when the header of the file gives a
    [name] with no whitespace and no quote character at either end, a
    [description] with no quote character at either end and, for a path
    of the fixed table, a [model] like the name (a key that is absent
    counts with its default); in particular it does so for every such
    file. *)
Theorem C1_second_update_same_text :
  forall (content rel : str) (fm : dict str) (rest : str) (s : strategy)
         (out : str),
    parse_frontmatter content = (Some fm, rest) ->
    update_agent_file FIXED_MODEL_AGENTS DYNAMIC_MODEL_AGENTS_TOOLS content rel
    = Ok_written s out ->
    update_agent_file FIXED_MODEL_AGENTS DYNAMIC_MODEL_AGENTS_TOOLS out rel
    = Ok_written s out
    <-> bare (dict_get_default (u "name") fm []) = true
        /\ unquoted (dict_get_default (u "description") fm []) = true
        /\ (s = fixed ->
            bare (dict_get_default (u "model") fm (u "sonnet")) = true).
Proof.
  intros content rel fm rest s out Hp Hu.
  destruct (written_from_merge _ _ _ _ _ _ _ _ Hp Hu) as (new_fm & Hmerge & ->).
  destruct (rewritten_output _ _ _ _ _ _ _ _ repo_tables_ok Hp Hmerge) as [_ Hr].
  assert (update_agent_file FIXED_MODEL_AGENTS DYNAMIC_MODEL_AGENTS_TOOLS
            (build_frontmatter new_fm ++ rest) rel
          = Ok_written s (build_frontmatter (second_fields new_fm) ++ rest)) as E.
  { unfold update_agent_file. rewrite Hr, (remerge _ _ _ _ _ _ Hmerge).
    reflexivity. }
  rewrite E.
  rewrite <- (second_header_same FIXED_MODEL_AGENTS DYNAMIC_MODEL_AGENTS_TOOLS
                fm rel s new_fm
                (parsed_values_one_line _ _ _ Hp (u "name") [] eq_refl)
                (parsed_values_one_line _ _ _ Hp (u "description") [] eq_refl)
                (parsed_values_one_line _ _ _ Hp (u "model") (u "sonnet") eq_refl)
                Hmerge).
  split.
  - intros H. injection H as H. apply app_inv_tail in H. exact H.
  - intros ->. reflexivity.
Qed.

Lemma C1_second_update_same_text_witness :
  update_agent_file FIXED_MODEL_AGENTS DYNAMIC_MODEL_AGENTS_TOOLS
    (build_frontmatter
       [(u "name", u "architect"); (u "description", u "Designs the system");
        (u "model", u "opus"); (u "tools", u "Read, Glob, Grep, Bash, Write")]
     ++ sample_body)
    (u "architecture/architect.md")
  = Ok_written fixed
      (build_frontmatter
         [(u "name", u "architect"); (u "description", u "Designs the system");
          (u "model", u "opus"); (u "tools", u "Read, Glob, Grep, Bash, Write")]
       ++ sample_body).
Proof.
  apply (C1_second_update_same_text sample_doc (u "architecture/architect.md")
           sample_fields sample_body fixed).
  - vm_compute. reflexivity.
  - vm_compute. reflexivity.
  - split; [vm_compute; reflexivity|].
    split; [vm_compute; reflexivity|].
    intros _. vm_compute. reflexivity.
Defined.

(** C1, as stated, fails: a name given in quotes with spaces inside them
    keeps the spaces on the first update and loses them on the second,
    so the second update writes another text. *)
Lemma C1_counterexample :
  dict_mem (u "backend/api-designer.md") DYNAMIC_MODEL_AGENTS_TOOLS = true
  /\ update_agent_file FIXED_MODEL_AGENTS DYNAMIC_MODEL_AGENTS_TOOLS
       padded_name_doc (u "backend/api-designer.md")
     = Ok_written dynamic padded_name_first
  /\ update_agent_file FIXED_MODEL_AGENTS DYNAMIC_MODEL_AGENTS_TOOLS
       padded_name_first (u "backend/api-designer.md")
     = Ok_written dynamic padded_name_second
  /\ padded_name_second <> padded_name_first.
Proof.
  split; [vm_compute; reflexivity|].
  split; [vm_compute; reflexivity|].
  split; [vm_compute; reflexivity|].
  intros E. apply str_eqb_eq in E. vm_compute in E. discriminate.
Qed.

Lemma C4_dynamic_output_without_model_witness :
  exists new_fm out fm',
    merge_fields FIXED_MODEL_AGENTS DYNAMIC_MODEL_AGENTS_TOOLS sample_fields
      (u "quality/runtime-verifier.md")
    = Some (dynamic, new_fm)
    /\ dict_get (u "model") new_fm = None
    /\ update_agent_file FIXED_MODEL_AGENTS DYNAMIC_MODEL_AGENTS_TOOLS sample_doc
         (u "quality/runtime-verifier.md")
       = Ok_written dynamic out
    /\ parse_frontmatter out = (Some fm', sample_body)
    /\ dict_get (u "model") fm' = None.
Proof.
  apply (C4_dynamic_output_without_model sample_doc
           (u "quality/runtime-verifier.md") sample_fields sample_body).
  - vm_compute. reflexivity.
  - vm_compute. reflexivity.
Defined.

Lemma C8_fixed_memory_from_policy_witness :
  exists new_fm out fm',
    merge_fields FIXED_MODEL_AGENTS DYNAMIC_MODEL_AGENTS_TOOLS sample_fields
      (u "architecture/architect.md")
    = Some (fixed, new_fm)
    /\ dict_get (u "memory") new_fm = None
    /\ update_agent_file FIXED_MODEL_AGENTS DYNAMIC_MODEL_AGENTS_TOOLS sample_doc
         (u "architecture/architect.md")
       = Ok_written fixed out
    /\ parse_frontmatter out = (Some fm', sample_body)
    /\ dict_get (u "memory") fm' = None.
Proof.
  apply (C8_fixed_memory_from_policy sample_doc (u "architecture/architect.md")
           {| tools := u "Read, Glob, Grep, Bash, Write"; memory := None |}
           sample_fields sample_body).
  - vm_compute. reflexivity.
  - vm_compute. reflexivity.
Defined.

(** ** The value of a header line *)

Lemma one_char_class (q : char) (a : str) :
  forallb (fun c => contains c [q]) a = true -> Forall (fun c => c = q) a.
Proof.
  intros H. apply Forall_forall. intros c Hc.
  rewrite forallb_forall in H. specialize (H c Hc).
  unfold contains in H. cbn [existsb] in H. rewrite orb_false_r in H.
  apply N.eqb_eq, H.
Qed.

Lemma one_char_ends (q : char) (s : str) :
  first_ok (fun c => contains c [q]) s = true
  /\ last_ok (fun c => contains c [q]) s = true ->
  first_ok (fun c => c =? q) s = true /\ last_ok (fun c => c =? q) s = true.
Proof.
  assert (forall c, (c =? q) = true -> contains c [q] = true) as W.
  { intros c E. unfold contains. cbn [existsb]. rewrite E. reflexivity. }
  intros [Hf Hl]. split.
  - exact (first_ok_weaken _ _ _ W Hf).
  - exact (last_ok_weaken _ _ _ W Hl).
Qed.

(** C3, as amended: for a header line with a colon, the key is the text
    before the first colon, trimmed, and the value that is stored is
    what is left of the text after it once the whitespace at both ends,
    then every double quote at both ends, then every single quote at
    both ends has been removed; whether the quotes match plays no part,
    and whitespace that was inside the quotes stays. *)
Theorem C3_value_quote_stripping :
  forall (fm : dict str) (key value : str),
    contains COLON key = false ->
    exists wa qa sa r sb qb wb,
      parse_line fm (key ++ COLON :: value) = dict_set (strip_ws key) r fm
      /\ value = wa ++ (qa ++ (sa ++ r ++ sb) ++ qb) ++ wb
      /\ forallb isspace wa = true /\ forallb isspace wb = true
      /\ Forall (fun c => c = DQUOTE) qa /\ Forall (fun c => c = DQUOTE) qb
      /\ Forall (fun c => c = SQUOTE) sa /\ Forall (fun c => c = SQUOTE) sb
      /\ (first_ok isspace (qa ++ (sa ++ r ++ sb) ++ qb) = true
          /\ last_ok isspace (qa ++ (sa ++ r ++ sb) ++ qb) = true)
      /\ (first_ok (fun c => c =? DQUOTE) (sa ++ r ++ sb) = true
          /\ last_ok (fun c => c =? DQUOTE) (sa ++ r ++ sb) = true)
      /\ (first_ok (fun c => c =? SQUOTE) r = true
          /\ last_ok (fun c => c =? SQUOTE) r = true).
Proof.
  intros fm key value Hk.
  destruct (strip_decomp isspace value) as (wa & wb & Ew & Hwa & Hwb & Hwf & Hwl).
  destruct (strip_decomp (fun c => contains c [DQUOTE]) (strip_ws value))
    as (qa & qb & Eq & Hqa & Hqb & Hqf & Hql).
  destruct (strip_decomp (fun c => contains c [SQUOTE])
              (strip_chars [DQUOTE] (strip_ws value)))
    as (sa & sb & Es & Hsa & Hsb & Hsf & Hsl).
  fold strip_ws in Ew, Hwf, Hwl.
  fold (strip_chars [DQUOTE]) in Eq, Hqf, Hql.
  fold (strip_chars [SQUOTE]) in Es, Hsf, Hsl.
  fold (parse_value value) in Es, Hsf, Hsl.
  exists wa, qa, sa, (parse_value value), sb, qb, wb.
  split; [apply parse_line_kv, Hk|].
  split; [rewrite <- Es, <- Eq; exact Ew|].
  split; [exact Hwa|]. split; [exact Hwb|].
  split; [apply one_char_class, Hqa|]. split; [apply one_char_class, Hqb|].
  split; [apply one_char_class, Hsa|]. split; [apply one_char_class, Hsb|].
  split; [rewrite <- Es, <- Eq; split; assumption|].
  split; [rewrite <- Es; apply one_char_ends; split; assumption|].
  apply one_char_ends; split; assumption.
Qed.

Lemma C3_value_quote_stripping_witness :
  exists wa qa sa r sb qb wb,
    parse_line [] (u "name" ++ COLON :: SPACE :: DQUOTE :: u "'foo'" ++ [DQUOTE; SPACE])
    = dict_set (strip_ws (u "name")) r []
    /\ SPACE :: DQUOTE :: u "'foo'" ++ [DQUOTE; SPACE]
       = wa ++ (qa ++ (sa ++ r ++ sb) ++ qb) ++ wb
    /\ forallb isspace wa = true /\ forallb isspace wb = true
    /\ Forall (fun c => c = DQUOTE) qa /\ Forall (fun c => c = DQUOTE) qb
    /\ Forall (fun c => c = SQUOTE) sa /\ Forall (fun c => c = SQUOTE) sb
    /\ (first_ok isspace (qa ++ (sa ++ r ++ sb) ++ qb) = true
        /\ last_ok isspace (qa ++ (sa ++ r ++ sb) ++ qb) = true)
    /\ (first_ok (fun c => c =? DQUOTE) (sa ++ r ++ sb) = true
        /\ last_ok (fun c => c =? DQUOTE) (sa ++ r ++ sb) = true)
    /\ (first_ok (fun c => c =? SQUOTE) r = true
        /\ last_ok (fun c => c =? SQUOTE) r = true).
Proof.
  apply (C3_value_quote_stripping []
           (u "name") (SPACE :: DQUOTE :: u "'foo'" ++ [DQUOTE; SPACE])).
  reflexivity.
Defined.

(** C3, as stated, fails: a value with an opening double quote and a
    closing single quote loses both, and a value in double quotes
    around single quotes loses both layers, where the rule of one
    matching layer keeps the first value whole and keeps the single
    quotes of the second. *)
Lemma C3_counterexample :
  parse_line [] (u "name: " ++ DQUOTE :: u "foo'") = [(u "name", u "foo")]
  /\ spec_value (SPACE :: DQUOTE :: u "foo'") = DQUOTE :: u "foo'"
  /\ parse_value (SPACE :: DQUOTE :: u "foo'")
     <> spec_value (SPACE :: DQUOTE :: u "foo'")
  /\ parse_line [] (u "name: " ++ DQUOTE :: u "'foo'" ++ [DQUOTE])
     = [(u "name", u "foo")]
  /\ spec_value (SPACE :: DQUOTE :: u "'foo'" ++ [DQUOTE]) = u "'foo'"
  /\ parse_value (SPACE :: DQUOTE :: u "'foo'" ++ [DQUOTE])
     <> spec_value (SPACE :: DQUOTE :: u "'foo'" ++ [DQUOTE]).
Proof.
  split; [vm_compute; reflexivity|].
  split; [vm_compute; reflexivity|].
  split; [intros E; apply str_eqb_eq in E; vm_compute in E; discriminate|].
  split; [vm_compute; reflexivity|].
  split; [vm_compute; reflexivity|].
  intros E; apply str_eqb_eq in E; vm_compute in E; discriminate.
Qed.

(** * Further properties *)

(** ** Where the header ends *)

(** The lazy search stops at the first occurrence of the pattern. *)
Lemma lazy_until_first (pat s g r : str) :
  lazy_until pat s = Some (g, r) ->
  forall a b, s = a ++ pat ++ b -> (List.length g <= List.length a)%nat.
Proof.
  revert g r; induction s as [|c s IH]; intros g r H a b E.
  - cbn [lazy_until] in H.
    destruct (startswith pat []); [|discriminate].
    inversion H; subst. simpl. lia.
  - cbn [lazy_until] in H.
    destruct (startswith pat (c :: s)) eqn:Es.
    + inversion H; subst. simpl. lia.
    + destruct (lazy_until pat s) as [[g' r']|] eqn:El; [|discriminate].
      inversion H; subst; clear H.
      destruct a as [|x a].
      * simpl in E. rewrite E, startswith_prefix in Es. discriminate.
      * inversion E; subst. simpl.
        specialize (IH g' r eq_refl a b eq_refl). lia.
Qed.

(** X1: a text that is the marker line, some text, a newline, the marker
    and a newline, and a rest has a header for [parse_frontmatter]; the
    header text taken is the shortest one that such a reading of the
    text allows, so the header ends at the first closing marker line. *)
Theorem X1_header_ends_at_first_marker :
  forall (content a b : str),
    content = opening ++ a ++ closing ++ b ->
    exists fm g rest,
      parse_frontmatter content = (Some fm, rest)
      /\ content = opening ++ g ++ closing ++ rest
      /\ (List.length g <= List.length a)%nat
      /\ (List.length b <= List.length rest)%nat.
Proof.
  intros content a b E.
  destruct (lazy_until_complete closing a b) as (g & r & Hl).
  assert (re_match content = Some (g, r)) as Hm.
  { unfold re_match. rewrite E, startswith_prefix.
    replace (skipn (List.length opening) (opening ++ a ++ closing ++ b))
      with (a ++ closing ++ b) by reflexivity.
    exact Hl. }
  pose proof (lazy_until_first _ _ _ _ Hl a b eq_refl) as Hg.
  pose proof (lazy_until_sound _ _ _ _ Hl) as Es.
  exists (fold_left parse_line (split NL (strip_ws g)) []), g, r.
  split; [unfold parse_frontmatter; rewrite Hm; reflexivity|].
  split; [rewrite E, Es; reflexivity|]. split; [exact Hg|].
  apply (f_equal (@List.length char)) in Es.
  rewrite !length_app in Es. lia.
Qed.

Lemma X1_header_ends_at_first_marker_witness :
  exists fm g rest,
    parse_frontmatter
      (opening ++ (u "name: x" ++ closing ++ u "text") ++ closing ++ u "more")
    = (Some fm, rest)
    /\ opening ++ (u "name: x" ++ closing ++ u "text") ++ closing ++ u "more"
       = opening ++ g ++ closing ++ rest
    /\ (List.length g <= List.length (u "name: x" ++ closing ++ u "text"))%nat
    /\ (List.length (u "more") <= List.length rest)%nat.
Proof.
  apply (X1_header_ends_at_first_marker
           (opening ++ (u "name: x" ++ closing ++ u "text") ++ closing ++ u "more")
           (u "name: x" ++ closing ++ u "text") (u "more")).
  reflexivity.
Defined.

(** X2: a marker line that follows the opening marker line at once is
    never taken for the closing one.  When such a text has a header for
    [parse_frontmatter] at all, the closing marker line is one of the
    body, and the rest that is returned is what follows that line. *)
Theorem X2_empty_header_not_recognised :
  forall (body : str) (fm : dict str) (rest : str),
    parse_frontmatter (opening ++ opening ++ body) = (Some fm, rest) ->
    (List.length rest < List.length body)%nat
    /\ (body = opening ++ rest \/ exists g, body = g ++ closing ++ rest).
Proof.
  intros body fm rest H.
  destruct (parsed_rest _ _ _ H) as (g & E).
  apply app_inv_head in E.
  assert (body = opening ++ rest \/ exists g', body = g' ++ closing ++ rest) as D.
  { destruct g as [|c0 g]; [discriminate|].
    destruct g as [|c1 g]; [discriminate|].
    destruct g as [|c2 g]; [discriminate|].
    destruct g as [|c3 g].
    - left. inversion E. reflexivity.
    - right. exists g. inversion E. reflexivity. }
  split; [|exact D].
  destruct D as [-> | (g' & ->)]; rewrite !length_app; simpl; lia.
Qed.

Lemma X2_empty_header_not_recognised_witness :
  (List.length (u "tail") < List.length (u "name: x" ++ closing ++ u "tail"))%nat
  /\ (u "name: x" ++ closing ++ u "tail" = opening ++ u "tail"
      \/ exists g, u "name: x" ++ closing ++ u "tail" = g ++ closing ++ u "tail").
Proof.
  apply (X2_empty_header_not_recognised (u "name: x" ++ closing ++ u "tail")
           [(u "name", u "x")] (u "tail")).
  vm_compute. reflexivity.
Defined.

(** ** The fields the parser stores *)

Lemma str_eqb_neq (a b : str) : a <> b -> str_eqb a b = false.
Proof.
  intros H. destruct (str_eqb a b) eqn:E; [|reflexivity].
  apply str_eqb_eq in E. contradiction.
Qed.

Lemma dict_get_set_same {V} (k : str) (v : V) (d : dict V) :
  dict_get k (dict_set k v d) = Some v.
Proof.
  induction d as [|[k' v'] d IH]; cbn [dict_set dict_get].
  - rewrite (proj2 (str_eqb_eq k k) eq_refl). reflexivity.
  - destruct (str_eqb k k') eqn:E; cbn [dict_get]; rewrite E; [reflexivity|exact IH].
Qed.

Lemma dict_get_set_other {V} (k k' : str) (v : V) (d : dict V) :
  k <> k' -> dict_get k' (dict_set k v d) = dict_get k' d.
Proof.
  intros H. induction d as [|[k0 v0] d IH]; cbn [dict_set dict_get].
  - rewrite (str_eqb_neq k' k) by congruence. reflexivity.
  - destruct (str_eqb k k0) eqn:E; cbn [dict_get].
    + apply str_eqb_eq in E; subst k0.
      rewrite (str_eqb_neq k' k) by congruence. reflexivity.
    + destruct (str_eqb k' k0); [reflexivity | exact IH].
Qed.

Lemma dict_mem_iff {V} (k : str) (d : dict V) :
  dict_mem k d = true <-> In k (dict_keys d).
Proof.
  split; [apply dict_mem_In_keys|].
  unfold dict_mem. induction d as [|[k' v'] d IH]; [intros []|].
  cbn [dict_keys map fst dict_get]. intros [E | H].
  - subst k'. rewrite (proj2 (str_eqb_eq k k) eq_refl). reflexivity.
  - destruct (str_eqb k k'); [reflexivity | apply IH, H].
Qed.

Lemma dict_set_keys {V} (k : str) (v : V) (d : dict V) :
  dict_keys (dict_set k v d)
  = if dict_mem k d then dict_keys d else dict_keys d ++ [k].
Proof.
  unfold dict_mem. induction d as [|[k' v'] d IH]; [reflexivity|].
  cbn [dict_set dict_get]. destruct (str_eqb k k') eqn:E; [reflexivity|].
  cbn [dict_keys map fst]. fold (dict_keys (dict_set k v d)). rewrite IH.
  destruct (dict_get k d); reflexivity.
Qed.

Lemma dict_set_NoDup {V} (k : str) (v : V) (d : dict V) :
  NoDup (dict_keys d) -> NoDup (dict_keys (dict_set k v d)).
Proof.
  intros H. rewrite dict_set_keys.
  destruct (dict_mem k d) eqn:E; [exact H|].
  apply NoDup_app; [exact H | repeat constructor; intros [] |].
  intros x Hx [<- | []].
  apply dict_mem_iff in Hx. congruence.
Qed.

Lemma dict_set_Forall {V} (P : str * V -> Prop) (k : str) (v : V) (d : dict V) :
  P (k, v) -> Forall P d -> Forall P (dict_set k v d).
Proof.
  intros Hv. induction d as [|[k' v'] d IH]; intros H; cbn [dict_set].
  - constructor; [exact Hv | constructor].
  - inversion H; subst. destruct (str_eqb k k') eqn:E.
    + apply str_eqb_eq in E; subst k'. constructor; assumption.
    + constructor; [assumption | apply IH; assumption].
Qed.

Lemma partition_before (c : char) (s a m b : str) :
  partition c s = (a, m, b) -> contains c a = false.
Proof.
  revert a m b; induction s as [|x s IH]; intros a m b; cbn [partition].
  - intros H; inversion H; reflexivity.
  - destruct (x =? c) eqn:E.
    + intros H; inversion H; reflexivity.
    + destruct (partition c s) as [[a' m'] b'].
      intros H; inversion H; subst. rewrite contains_cons, N.eqb_sym, E.
      exact (IH _ _ _ eq_refl).
Qed.

(** The loop body in terms of [line_key]. *)
Lemma parse_line_by_key (fm : dict str) (line : str) :
  parse_line fm line
  = match line_key line with
    | Some k => dict_set k (parse_value (snd (partition COLON line))) fm
    | None => fm
    end.
Proof.
  unfold parse_line, line_key.
  destruct (contains COLON line); [|reflexivity].
  destruct (partition COLON line) as [[key m] value]. reflexivity.
Qed.

Lemma fold_parse_line_other_keys (lines : list str) (fm : dict str) (k : str) :
  (forall l, In l lines -> line_key l <> Some k) ->
  dict_get k (fold_left parse_line lines fm) = dict_get k fm.
Proof.
  revert fm; induction lines as [|l lines IH]; intros fm H; [reflexivity|].
  cbn [fold_left]. rewrite IH by (intros l' Hl'; apply H; right; exact Hl').
  rewrite parse_line_by_key.
  pose proof (H l (or_introl eq_refl)) as Hk.
  destruct (line_key l) as [k'|]; [|reflexivity].
  apply dict_get_set_other. congruence.
Qed.

(** X3: the value of a key is set by the last header line that carries
    the key: lines before it, whatever their keys, and lines after it
    with other keys or without colon do not change it. *)
Theorem X3_last_line_of_a_key_wins :
  forall (fm : dict str) (before after : list str) (key value : str),
    contains COLON key = false ->
    (forall l, In l after -> line_key l <> Some (strip_ws key)) ->
    dict_get (strip_ws key)
      (fold_left parse_line (before ++ [key ++ COLON :: value] ++ after) fm)
    = Some (parse_value value).
Proof.
  intros fm before after key value Hk Hafter.
  rewrite !fold_left_app. cbn [fold_left].
  rewrite (fold_parse_line_other_keys _ _ _ Hafter).
  rewrite (parse_line_kv _ _ _ Hk). apply dict_get_set_same.
Qed.

Lemma X3_last_line_of_a_key_wins_witness :
  dict_get (strip_ws (u "model "))
    (fold_left parse_line
       ([u "model: haiku"] ++ [u "model " ++ COLON :: u " opus"]
        ++ [u "tools: Read"; u "no colon here"])
       [])
  = Some (parse_value (u " opus")).
Proof.
  apply (X3_last_line_of_a_key_wins [] [u "model: haiku"]
           [u "tools: Read"; u "no colon here"] (u "model ") (u " opus")).
  - reflexivity.
  - intros l [<- | [<- | []]]; vm_compute; discriminate.
Defined.

Lemma parse_line_wf (fm : dict str) (line : str) :
  contains NL line = false ->
  Forall (fun kv => field_wf kv = true) fm /\ NoDup (dict_keys fm) ->
  Forall (fun kv => field_wf kv = true) (parse_line fm line)
  /\ NoDup (dict_keys (parse_line fm line)).
Proof.
  intros Hl [Hwf Hnd]. unfold parse_line.
  destruct (contains COLON line); [|split; assumption].
  destruct (partition COLON line) as [[key m] value] eqn:E.
  split; [|apply dict_set_NoDup, Hnd].
  apply dict_set_Forall; [|exact Hwf].
  pose proof (partition_before _ _ _ _ _ E) as Hc.
  apply partition_parts in E.
  assert (contains NL key = false) as Hkn.
  { apply (contains_incl NL line); [|exact Hl].
    rewrite E. intros x Hx. apply in_or_app; left; exact Hx. }
  assert (contains NL value = false) as Hvn.
  { apply (contains_incl NL line); [|exact Hl].
    rewrite E. intros x Hx. apply in_or_app; right. apply in_or_app; right.
    exact Hx. }
  destruct (strip_decomp isspace key) as (_ & _ & _ & _ & _ & Hf & Hb).
  destruct (strip_decomp (fun c => contains c [SQUOTE])
              (strip_chars [DQUOTE] (strip_ws value)))
    as (_ & _ & _ & _ & _ & Hsf & Hsl).
  destruct (one_char_ends SQUOTE _ (conj Hsf Hsl)) as [Hsf' Hsl'].
  assert (contains NL (strip_ws key) = false) as A1
      by exact (contains_incl NL key _ (strip_incl isspace key) Hkn).
  assert (contains COLON (strip_ws key) = false) as A2
      by exact (contains_incl COLON key _ (strip_incl isspace key) Hc).
  assert (first_ok isspace (strip_ws key) = true) as A3 by exact Hf.
  assert (last_ok isspace (strip_ws key) = true) as A4 by exact Hb.
  assert (contains NL (parse_value value) = false) as A5
      by exact (contains_incl NL value _ (parse_value_incl value) Hvn).
  assert (first_ok (fun c => c =? SQUOTE) (parse_value value) = true) as A6
      by exact Hsf'.
  assert (last_ok (fun c => c =? SQUOTE) (parse_value value) = true) as A7
      by exact Hsl'.
  unfold field_wf. cbn [fst snd].
  rewrite A1, A2, A3, A4, A5, A6, A7. reflexivity.
Qed.

(** X4: in the fields that [parse_frontmatter] returns no key occurs
    twice; every key is one line, holds no colon and has no whitespace
    at either end; every value is one line and has no single quote at
    either end. *)
Theorem X4_parsed_fields_well_formed :
  forall (content : str) (fm : dict str) (rest : str),
    parse_frontmatter content = (Some fm, rest) ->
    NoDup (dict_keys fm) /\ Forall (fun kv => field_wf kv = true) fm.
Proof.
  intros content fm rest. unfold parse_frontmatter.
  destruct (re_match content) as [[fm_text r]|]; [|discriminate].
  intros H; inversion H; subst; clear H.
  pose proof (split_lines (strip_ws fm_text)) as Hl.
  assert (forall lines d,
             Forall (fun l => contains NL l = false) lines ->
             Forall (fun kv => field_wf kv = true) d /\ NoDup (dict_keys d) ->
             Forall (fun kv => field_wf kv = true) (fold_left parse_line lines d)
             /\ NoDup (dict_keys (fold_left parse_line lines d))) as G.
  { induction lines as [|l lines IH]; intros d Hls Hd; [exact Hd|].
    inversion Hls; subst. cbn [fold_left]. apply IH; [assumption|].
    apply parse_line_wf; assumption. }
  destruct (G _ [] Hl (conj (Forall_nil _) (NoDup_nil _))) as [Hwf Hnd].
  split; assumption.
Qed.

Lemma X4_parsed_fields_well_formed_witness :
  NoDup (dict_keys sample_fields)
  /\ Forall (fun kv => field_wf kv = true) sample_fields.
Proof.
  apply (X4_parsed_fields_well_formed sample_doc sample_fields sample_body).
  vm_compute. reflexivity.
Defined.

(** ** What [build_frontmatter] writes *)

Lemma str_in_iff (k : str) (l : list str) : str_in k l = true <-> In k l.
Proof.
  unfold str_in. rewrite existsb_exists. split.
  - intros (x & Hx & E). apply str_eqb_eq in E. subst x. exact Hx.
  - intros H. exists k. split; [exact H | apply str_eqb_eq; reflexivity].
Qed.

Lemma dict_get_NoDup (k v : str) (d : dict str) :
  NoDup (dict_keys d) -> In (k, v) d -> dict_get k d = Some v.
Proof.
  induction d as [|[k' v'] d IH]; [intros _ []|].
  cbn [dict_keys map fst dict_get]. intros Hnd [E | H].
  - inversion E; subst. rewrite (proj2 (str_eqb_eq k k) eq_refl). reflexivity.
  - inversion Hnd; subst. rewrite str_eqb_neq; [apply IH; assumption|].
    intros ->. apply H2. apply (in_map fst) in H. exact H.
Qed.

Lemma ordered_lines_as_map (fields : dict str) (keys : list str) :
  flat_map
    (fun key =>
       match dict_get key fields with
       | Some val =>
           if str_eqb key (u "description")
           then [key ++ u ": " ++ [DQUOTE] ++ val ++ [DQUOTE]]
           else [key ++ u ": " ++ val]
       | None => []
       end)
    keys
  = map (fun k => field_line k (dict_get_default k fields []))
      (filter (fun k => dict_mem k fields) keys).
Proof.
  induction keys as [|k keys IH]; [reflexivity|].
  cbn [flat_map filter]. rewrite IH.
  unfold dict_mem, dict_get_default, field_line.
  destruct (dict_get k fields) as [v|] eqn:E; [|reflexivity].
  cbn [map]. rewrite E.
  destruct (str_eqb k (u "description")); reflexivity.
Qed.

Lemma remaining_lines_as_map (fields d : dict str) :
  (forall k v, In (k, v) d -> dict_get k fields = Some v) ->
  remaining_lines d
  = map (fun k => field_line k (dict_get_default k fields []))
      (filter (fun k => negb (str_in k order)) (dict_keys d)).
Proof.
  induction d as [|[k v] d IH]; intros H; [reflexivity|].
  unfold remaining_lines. cbn [flat_map dict_keys map fst snd filter].
  fold (remaining_lines d). fold (dict_keys d).
  rewrite IH by (intros k' v' Hin; apply H; right; exact Hin).
  destruct (str_in k order) eqn:E; [reflexivity|].
  cbn [negb map app]. f_equal.
  unfold field_line, dict_get_default. rewrite (H k v (or_introl eq_refl)).
  destruct (str_eqb k (u "description")) eqn:Ed; [|reflexivity].
  apply str_eqb_eq in Ed. subst k. discriminate.
Qed.

Lemma filter_split_Permutation {A} (p : A -> bool) (l : list A) :
  Permutation (filter p l ++ filter (fun x => negb (p x)) l) l.
Proof.
  induction l as [|x l IH]; [constructor|].
  cbn [filter]. destruct (p x); cbn [negb app].
  - constructor. exact IH.
  - apply Permutation_sym, Permutation_cons_app, Permutation_sym, IH.
Qed.

Lemma order_NoDup : NoDup order.
Proof.
  unfold order.
  repeat (constructor;
          [cbn [In]; intros H;
           repeat (destruct H as [H | H]; [discriminate H|]); exact H|]).
  constructor.
Qed.

(** X5: [build_frontmatter] writes one line for every key of the dict
    and no other line: the keys of [order] that the dict has come
    first, in the order of [order], then the other keys in the order of
    the dict; the description is put in double quotes and every other
    value is written as it is. *)
Theorem X5_every_field_written_once :
  forall fields : dict str,
    NoDup (dict_keys fields) ->
    build_frontmatter fields
    = join NL
        ([u "---"]
         ++ map (fun k => field_line k (dict_get_default k fields []))
              (emitted_keys fields)
         ++ [u "---"]) ++ [NL]
    /\ Permutation (emitted_keys fields) (dict_keys fields).
Proof.
  intros fields Hnd. split.
  - unfold build_frontmatter, emitted_keys. rewrite map_app.
    unfold ordered_lines. rewrite ordered_lines_as_map.
    rewrite (remaining_lines_as_map fields fields)
      by (intros k v; apply dict_get_NoDup, Hnd).
    rewrite <- !app_assoc. reflexivity.
  - unfold emitted_keys.
    apply Permutation_trans
      with (filter (fun k => str_in k order) (dict_keys fields)
            ++ filter (fun k => negb (str_in k order)) (dict_keys fields));
      [|apply filter_split_Permutation].
    apply Permutation_app_tail.
    apply NoDup_Permutation.
    + apply NoDup_filter, order_NoDup.
    + apply NoDup_filter, Hnd.
    + intros k. rewrite !filter_In, str_in_iff, dict_mem_iff. tauto.
Qed.

Lemma sample_fields_NoDup : NoDup (dict_keys sample_fields).
Proof.
  unfold sample_fields. cbn [dict_keys map fst].
  repeat (constructor;
          [cbn [In]; intros H;
           repeat (destruct H as [H | H]; [discriminate H|]); exact H|]).
  constructor.
Qed.

Lemma X5_every_field_written_once_witness :
  build_frontmatter sample_fields
  = join NL
      ([u "---"]
       ++ map (fun k => field_line k (dict_get_default k sample_fields []))
            (emitted_keys sample_fields)
       ++ [u "---"]) ++ [NL]
  /\ Permutation (emitted_keys sample_fields) (dict_keys sample_fields).
Proof.
  apply (X5_every_field_written_once sample_fields).
  exact sample_fields_NoDup.
Defined.

(** ** Which files are rewritten *)

Lemma header_found_iff (content : str) :
  (exists fm rest, parse_frontmatter content = (Some fm, rest))
  <-> exists a b, content = opening ++ a ++ closing ++ b.
Proof.
  split.
  - intros (fm & rest & H). destruct (parsed_rest _ _ _ H) as (g & E).
    exists g, rest. exact E.
  - intros (a & b & E).
    destruct (lazy_until_complete closing a b) as (g & r & Hl).
    exists (fold_left parse_line (split NL (strip_ws g)) []), r.
    unfold parse_frontmatter, re_match. rewrite E, startswith_prefix.
    replace (skipn (List.length opening) (opening ++ a ++ closing ++ b))
      with (a ++ closing ++ b) by reflexivity.
    rewrite Hl. reflexivity.
Qed.

Lemma merge_fields_some_iff (FIXED : dict config) (DYNAMIC : dict str)
    (fm : dict str) (rel : str) :
  (exists s new_fm, merge_fields FIXED DYNAMIC fm rel = Some (s, new_fm))
  <-> dict_mem rel FIXED = true \/ dict_mem rel DYNAMIC = true.
Proof.
  unfold merge_fields, dict_mem.
  destruct (dict_get rel FIXED) as [cfg|].
  - split; [intros _; left; reflexivity | intros _; eauto].
  - destruct (dict_get rel DYNAMIC) as [t|].
    + split; [intros _; right; reflexivity | intros _; eauto].
    + split; [intros (s & n & H); discriminate | intros [H | H]; discriminate].
Qed.

(** X6: [update_agent_file] returns [True], and writes, exactly when the
    text has a header and the path is a key of one of the two tables; a
    path that is a key of the fixed table is treated as fixed, whatever
    the dynamic table holds. *)
Theorem X6_rewritten_iff_header_and_categorized :
  forall (FIXED : dict config) (DYNAMIC : dict str) (content rel : str),
    (returned (update_agent_file FIXED DYNAMIC content rel) = true
     <-> (exists a b, content = opening ++ a ++ closing ++ b)
         /\ (dict_mem rel FIXED = true \/ dict_mem rel DYNAMIC = true))
    /\ (forall s out,
           update_agent_file FIXED DYNAMIC content rel = Ok_written s out ->
           s = if dict_mem rel FIXED then fixed else dynamic).
Proof.
  intros FIXED DYNAMIC content rel. split.
  - rewrite <- header_found_iff. unfold update_agent_file. split.
    + destruct (parse_frontmatter content) as [[fm|] rest]; [|discriminate].
      destruct (merge_fields FIXED DYNAMIC fm rel) as [[s new_fm]|] eqn:E;
        [|discriminate].
      intros _. split; [eauto|].
      apply (merge_fields_some_iff FIXED DYNAMIC fm rel). eauto.
    + intros [(fm & rest & Hp) Hc]. rewrite Hp.
      apply (merge_fields_some_iff FIXED DYNAMIC fm rel) in Hc
        as (s & new_fm & ->).
      reflexivity.
  - intros s out. unfold update_agent_file.
    destruct (parse_frontmatter content) as [[fm|] rest]; [|discriminate].
    destruct (merge_fields FIXED DYNAMIC fm rel) as [[s' new_fm]|] eqn:E;
      [|discriminate].
    intros H; inversion H; subst; clear H.
    apply merge_fields_shape in E
      as [(cfg & EF & -> & _) | (EF & t & _ & -> & _)];
      unfold dict_mem; rewrite EF; reflexivity.
Qed.

(** X7: the text that is written always begins with the marker line, the
    [name] line and the [description] line, in this order and wherever
    the two keys stood in the header; a key that the header does not
    have is written with the empty value. *)
Theorem X7_name_and_description_first :
  forall (FIXED : dict config) (DYNAMIC : dict str) (content rel : str)
         (fm : dict str) (rest : str) (s : strategy) (out : str),
    parse_frontmatter content = (Some fm, rest) ->
    update_agent_file FIXED DYNAMIC content rel = Ok_written s out ->
    exists tail,
      out
      = u "---" ++ NL ::
        (u "name: " ++ dict_get_default (u "name") fm []) ++ NL ::
        (u "description: " ++ [DQUOTE]
         ++ dict_get_default (u "description") fm [] ++ [DQUOTE]) ++ NL :: tail.
Proof.
  intros FIXED DYNAMIC content rel fm rest s out Hp Hu.
  destruct (written_from_merge _ _ _ _ _ _ _ _ Hp Hu) as (new_fm & Hm & ->).
  clear Hu Hp.
  apply merge_fields_shape in Hm
    as [(cfg & _ & _ & ->) | (_ & t & _ & _ & ->)].
  - generalize (dict_get_default (u "name") fm []).
    generalize (dict_get_default (u "description") fm []).
    generalize (dict_get_default (u "model") fm (u "sonnet")).
    intros m d n.
    destruct (memory cfg) as [p|].
    + change (build_frontmatter
                ([(u "name", n); (u "description", d); (u "model", m);
                  (u "tools", tools cfg)] ++ [(u "memory", p)]))
        with (join NL
                ([u "---"]
                 ++ [u "name" ++ u ": " ++ n;
                     u "description" ++ u ": " ++ [DQUOTE] ++ d ++ [DQUOTE];
                     u "model" ++ u ": " ++ m;
                     u "tools" ++ u ": " ++ tools cfg;
                     u "memory" ++ u ": " ++ p]
                 ++ [u "---"]) ++ [NL]).
      rewrite built_text.
      exists ((u "model" ++ u ": " ++ m)
              ++ header_tail [u "tools" ++ u ": " ++ tools cfg;
                              u "memory" ++ u ": " ++ p] rest).
      reflexivity.
    + change (build_frontmatter
                ([(u "name", n); (u "description", d); (u "model", m);
                  (u "tools", tools cfg)] ++ []))
        with (join NL
                ([u "---"]
                 ++ [u "name" ++ u ": " ++ n;
                     u "description" ++ u ": " ++ [DQUOTE] ++ d ++ [DQUOTE];
                     u "model" ++ u ": " ++ m;
                     u "tools" ++ u ": " ++ tools cfg]
                 ++ [u "---"]) ++ [NL]).
      rewrite built_text.
      exists ((u "model" ++ u ": " ++ m)
              ++ header_tail [u "tools" ++ u ": " ++ tools cfg] rest).
      reflexivity.
  - generalize (dict_get_default (u "name") fm []).
    generalize (dict_get_default (u "description") fm []).
    intros d n.
    change (build_frontmatter
              [(u "name", n); (u "description", d); (u "tools", t)])
      with (join NL
              ([u "---"]
               ++ [u "name" ++ u ": " ++ n;
                   u "description" ++ u ": " ++ [DQUOTE] ++ d ++ [DQUOTE];
                   u "tools" ++ u ": " ++ t]
               ++ [u "---"]) ++ [NL]).
    rewrite built_text.
    exists ((u "tools" ++ u ": " ++ t) ++ header_tail [] rest).
    reflexivity.
Qed.

Lemma X7_name_and_description_first_witness :
  exists tail,
    build_frontmatter
      [(u "name", []); (u "description", []);
       (u "tools", u "Read, Glob, Grep, Bash")]
    ++ u "BODY" ++ [NL]
    = u "---" ++ NL ::
      (u "name: " ++ dict_get_default (u "name")
                       [(u "model", u "opus"); (u "tools", u "Everything")] [])
      ++ NL ::
      (u "description: " ++ [DQUOTE]
       ++ dict_get_default (u "description")
            [(u "model", u "opus"); (u "tools", u "Everything")] []
       ++ [DQUOTE]) ++ NL :: tail.
Proof.
  apply (X7_name_and_description_first FIXED_MODEL_AGENTS
           DYNAMIC_MODEL_AGENTS_TOOLS nameless_doc
           (u "quality/runtime-verifier.md")
           [(u "model", u "opus"); (u "tools", u "Everything")]
           (u "BODY" ++ [NL]) dynamic).
  - vm_compute. reflexivity.
  - vm_compute. reflexivity.
Defined.

(** ** The header that is written, read back *)

(** For the tables of the script: the fields that are merged and how
    the written header reads. *)
Lemma output_fields (content rel : str) (fm : dict str) (rest : str)
    (s : strategy) (out : str) :
  parse_frontmatter content = (Some fm, rest) ->
  update_agent_file FIXED_MODEL_AGENTS DYNAMIC_MODEL_AGENTS_TOOLS content rel
  = Ok_written s out ->
  exists new_fm,
    merge_fields FIXED_MODEL_AGENTS DYNAMIC_MODEL_AGENTS_TOOLS fm rel
    = Some (s, new_fm)
    /\ parse_frontmatter out = (Some (reread new_fm), rest).
Proof.
  intros Hp Hu.
  destruct (written_from_merge _ _ _ _ _ _ _ _ Hp Hu) as (new_fm & Hm & ->).
  exists new_fm. split; [exact Hm|].
  exact (proj2 (rewritten_output _ _ _ _ _ _ _ _ repo_tables_ok Hp Hm)).
Qed.

(** X8: in the header that is written, the [tools] value is the one the
    tables give for the path, whatever [tools] value the header had. *)
Theorem X8_tools_from_tables :
  forall (content rel : str) (fm : dict str) (rest : str) (s : strategy)
         (out : str),
    parse_frontmatter content = (Some fm, rest) ->
    update_agent_file FIXED_MODEL_AGENTS DYNAMIC_MODEL_AGENTS_TOOLS content rel
    = Ok_written s out ->
    exists fm' t,
      parse_frontmatter out = (Some fm', rest)
      /\ dict_get (u "tools") fm' = Some t
      /\ policy_tools FIXED_MODEL_AGENTS DYNAMIC_MODEL_AGENTS_TOOLS rel = Some t.
Proof.
  intros content rel fm rest s out Hp Hu.
  destruct (output_fields _ _ _ _ _ _ Hp Hu) as (new_fm & Hm & Hr).
  apply merge_fields_shape in Hm
    as [(cfg & EF & _ & ->) | (EF & t & ED & _ & ->)].
  - exists (reread
              ([(u "name", dict_get_default (u "name") fm []);
                (u "description", dict_get_default (u "description") fm []);
                (u "model", dict_get_default (u "model") fm (u "sonnet"));
                (u "tools", tools cfg)]
               ++ match memory cfg with
                  | Some m => [(u "memory", m)]
                  | None => []
                  end)), (tools cfg).
    split; [exact Hr|].
    destruct (fixed_entry_ok _ _ repo_tables_ok _ _ EF) as [Ht _].
    apply value_ok_parts in Ht as (_ & _ & Hb & _).
    split; [|unfold policy_tools; rewrite EF; reflexivity].
    transitivity (Some (parse_value (SPACE :: tools cfg)));
      [destruct (memory cfg); reflexivity|].
    rewrite (parse_value_bare _ Hb). reflexivity.
  - exists (reread
              [(u "name", dict_get_default (u "name") fm []);
               (u "description", dict_get_default (u "description") fm []);
               (u "tools", t)]), t.
    split; [exact Hr|].
    pose proof (dynamic_entry_ok _ _ repo_tables_ok _ _ ED) as Ht.
    apply value_ok_parts in Ht as (_ & _ & Hb & _).
    split; [|unfold policy_tools; rewrite EF; exact ED].
    transitivity (Some (parse_value (SPACE :: t))); [reflexivity|].
    rewrite (parse_value_bare _ Hb). reflexivity.
Qed.

Lemma X8_tools_from_tables_witness :
  exists fm' t,
    parse_frontmatter
      (build_frontmatter
         [(u "name", []); (u "description", []);
          (u "tools", u "Read, Glob, Grep, Bash")]
       ++ u "BODY" ++ [NL])
    = (Some fm', u "BODY" ++ [NL])
    /\ dict_get (u "tools") fm' = Some t
    /\ policy_tools FIXED_MODEL_AGENTS DYNAMIC_MODEL_AGENTS_TOOLS
         (u "quality/runtime-verifier.md") = Some t.
Proof.
  apply (X8_tools_from_tables nameless_doc (u "quality/runtime-verifier.md")
           [(u "model", u "opus"); (u "tools", u "Everything")]
           (u "BODY" ++ [NL]) dynamic).
  - vm_compute. reflexivity.
  - vm_compute. reflexivity.
Defined.

Lemma parse_value_space (v : str) : parse_value (SPACE :: v) = parse_value v.
Proof. unfold parse_value. rewrite strip_ws_space. reflexivity. Qed.

(** X9: for a path of the fixed table, the [model] of the header that is
    written is [sonnet] when the header had no [model] key, and else the
    value the header had, as the parser reads it once more. *)
Theorem X9_fixed_model_kept_or_default :
  forall (content rel : str) (cfg : config) (fm : dict str) (rest : str),
    parse_frontmatter content = (Some fm, rest) ->
    dict_get rel FIXED_MODEL_AGENTS = Some cfg ->
    exists out fm',
      update_agent_file FIXED_MODEL_AGENTS DYNAMIC_MODEL_AGENTS_TOOLS content rel
      = Ok_written fixed out
      /\ parse_frontmatter out = (Some fm', rest)
      /\ dict_get (u "model") fm'
         = Some match dict_get (u "model") fm with
                | Some v => parse_value v
                | None => u "sonnet"
                end.
Proof.
  intros content rel cfg fm rest Hp EF.
  assert (merge_fields FIXED_MODEL_AGENTS DYNAMIC_MODEL_AGENTS_TOOLS fm rel
          = Some (fixed,
                  [(u "name", dict_get_default (u "name") fm []);
                   (u "description", dict_get_default (u "description") fm []);
                   (u "model", dict_get_default (u "model") fm (u "sonnet"));
                   (u "tools", tools cfg)]
                  ++ match memory cfg with
                     | Some m => [(u "memory", m)]
                     | None => []
                     end)) as Hm.
  { unfold merge_fields. rewrite EF. destruct (memory cfg); reflexivity. }
  destruct (rewritten_output _ _ _ _ _ _ _ _ repo_tables_ok Hp Hm) as [Hu Hr].
  eexists _, _. split; [exact Hu|]. split; [exact Hr|].
  transitivity (Some (parse_value
                        (SPACE :: dict_get_default (u "model") fm (u "sonnet"))));
    [destruct (memory cfg); reflexivity|].
  rewrite parse_value_space. unfold dict_get_default.
  destruct (dict_get (u "model") fm); reflexivity.
Qed.

Lemma X9_fixed_model_kept_or_default_witness :
  exists out fm',
    update_agent_file FIXED_MODEL_AGENTS DYNAMIC_MODEL_AGENTS_TOOLS
      scenario_input (u "architecture/architect.md")
    = Ok_written fixed out
    /\ parse_frontmatter out = (Some fm', u "BODY" ++ [NL])
    /\ dict_get (u "model") fm'
       = Some match dict_get (u "model")
                      [(u "name", u "foo"); (u "description", u "bar")] with
              | Some v => parse_value v
              | None => u "sonnet"
              end.
Proof.
  apply (X9_fixed_model_kept_or_default scenario_input
           (u "architecture/architect.md")
           {| tools := u "Read, Glob, Grep, Bash, Write"; memory := None |}
           [(u "name", u "foo"); (u "description", u "bar")] (u "BODY" ++ [NL])).
  - vm_compute. reflexivity.
  - vm_compute. reflexivity.
Defined.

(** X10: the keys of the header that is written come in one fixed order:
    name, description, model, tools and, when the table entry has one,
    memory for a path of the fixed table; name, description, tools for
    a path of the dynamic table. *)
Theorem X10_written_keys_in_order :
  forall (content rel : str) (fm : dict str) (rest : str) (s : strategy)
         (out : str),
    parse_frontmatter content = (Some fm, rest) ->
    update_agent_file FIXED_MODEL_AGENTS DYNAMIC_MODEL_AGENTS_TOOLS content rel
    = Ok_written s out ->
    exists fm',
      parse_frontmatter out = (Some fm', rest)
      /\ dict_keys fm'
         = match dict_get rel FIXED_MODEL_AGENTS with
           | Some cfg =>
               [u "name"; u "description"; u "model"; u "tools"]
               ++ match memory cfg with
                  | Some _ => [u "memory"]
                  | None => []
                  end
           | None => [u "name"; u "description"; u "tools"]
           end.
Proof.
  intros content rel fm rest s out Hp Hu.
  destruct (output_fields _ _ _ _ _ _ Hp Hu) as (new_fm & Hm & Hr).
  exists (reread new_fm). split; [exact Hr|].
  apply merge_fields_shape in Hm
    as [(cfg & EF & _ & ->) | (EF & t & ED & _ & ->)]; rewrite EF.
  - destruct (memory cfg); reflexivity.
  - reflexivity.
Qed.

Lemma X10_written_keys_in_order_witness :
  exists fm',
    parse_frontmatter
      (build_frontmatter
         [(u "name", []); (u "description", []);
          (u "tools", u "Read, Glob, Grep, Bash")]
       ++ u "BODY" ++ [NL])
    = (Some fm', u "BODY" ++ [NL])
    /\ dict_keys fm'
       = match dict_get (u "quality/runtime-verifier.md") FIXED_MODEL_AGENTS with
         | Some cfg =>
             [u "name"; u "description"; u "model"; u "tools"]
             ++ match memory cfg with
                | Some _ => [u "memory"]
                | None => []
                end
         | None => [u "name"; u "description"; u "tools"]
         end.
Proof.
  apply (X10_written_keys_in_order nameless_doc (u "quality/runtime-verifier.md")
           [(u "model", u "opus"); (u "tools", u "Everything")]
           (u "BODY" ++ [NL]) dynamic).
  - vm_compute. reflexivity.
  - vm_compute. reflexivity.
Defined.

(** ** The loop of [main] *)

(** The loop treats every file on its own. *)
Lemma main_loop_as_map (FIXED : dict config) (DYNAMIC : dict str)
    (files : list agent_file) (updated skipped : nat) :
  main_loop FIXED DYNAMIC files updated skipped
  = ((updated + List.length (filter (counted_updated FIXED DYNAMIC) files))%nat,
     (skipped + List.length (filter (counted_skipped FIXED DYNAMIC) files))%nat,
     map (final_text FIXED DYNAMIC) files).
Proof.
  revert updated skipped; induction files as [|f files IH]; intros n k.
  - cbn [main_loop filter map List.length]. rewrite !Nat.add_0_r. reflexivity.
  - cbn [main_loop filter map].
    unfold counted_updated at 1, counted_skipped at 1, final_text at 1.
    fold (excluded f). fold (is_template f).
    destruct (excluded f); cbn [negb andb orb].
    + rewrite IH. reflexivity.
    + destruct (is_template f); cbn [negb andb orb].
      * rewrite IH. cbn [List.length]. rewrite Nat.add_succ_r. reflexivity.
      * destruct (returned (update_agent_file FIXED DYNAMIC (content f) (rel_path f)));
          cbn [negb]; rewrite IH; cbn [List.length];
          rewrite Nat.add_succ_r; reflexivity.
Qed.

Lemma counted_once (FIXED : dict config) (DYNAMIC : dict str)
    (files : list agent_file) :
  (List.length (filter (counted_updated FIXED DYNAMIC) files)
   + List.length (filter (counted_skipped FIXED DYNAMIC) files)
   = List.length (filter (fun f => negb (excluded f)) files))%nat.
Proof.
  induction files as [|f files IH]; [reflexivity|].
  cbn [filter]. unfold counted_updated at 1, counted_skipped at 1.
  destruct (excluded f); cbn [negb andb orb]; [exact IH|].
  destruct (is_template f); cbn [negb andb orb List.length]; [lia|].
  destruct (returned (update_agent_file FIXED DYNAMIC (content f) (rel_path f)));
    cbn [negb List.length]; lia.
Qed.

(** X11: the loop of [main] handles every file independently of the
    others: the text of a file after the run depends on that file alone,
    the texts come in the order of the files, and every file that is
    not passed over by the first test (not a markdown file, or a README)
    is counted exactly once, as updated or as skipped. *)
Theorem X11_loop_counts_every_file_once :
  forall (FIXED : dict config) (DYNAMIC : dict str) (files : list agent_file)
         (updated skipped : nat),
    snd (main_loop FIXED DYNAMIC files updated skipped)
    = map (final_text FIXED DYNAMIC) files
    /\ fst (fst (main_loop FIXED DYNAMIC files updated skipped))
       = (updated + List.length (filter (counted_updated FIXED DYNAMIC) files))%nat
    /\ (fst (fst (main_loop FIXED DYNAMIC files updated skipped))
        + snd (fst (main_loop FIXED DYNAMIC files updated skipped))
        = updated + skipped
          + List.length (filter (fun f => negb (excluded f)) files))%nat.
Proof.
  intros FIXED DYNAMIC files updated skipped.
  rewrite main_loop_as_map. cbn [fst snd].
  split; [reflexivity|]. split; [reflexivity|].
  pose proof (counted_once FIXED DYNAMIC files). lia.
Qed.

(** A file that was rewritten is rewritten again by a second call, and a
    file that was skipped is skipped again. *)
Lemma returned_stable (content rel : str) :
  returned
    (update_agent_file FIXED_MODEL_AGENTS DYNAMIC_MODEL_AGENTS_TOOLS
       (file_after content
          (update_agent_file FIXED_MODEL_AGENTS DYNAMIC_MODEL_AGENTS_TOOLS
             content rel))
       rel)
  = returned
      (update_agent_file FIXED_MODEL_AGENTS DYNAMIC_MODEL_AGENTS_TOOLS content rel).
Proof.
  destruct (update_agent_file FIXED_MODEL_AGENTS DYNAMIC_MODEL_AGENTS_TOOLS
              content rel) as [| |s out] eqn:E; cbn [file_after].
  - rewrite E. reflexivity.
  - rewrite E. reflexivity.
  - pose proof E as E'. unfold update_agent_file in E'.
    destruct (parse_frontmatter content) as [[fm|] rest] eqn:Hp; [|discriminate].
    clear E'.
    destruct (written_from_merge _ _ _ _ _ _ _ _ Hp E) as (new_fm & Hm & ->).
    destruct (rewritten_output _ _ _ _ _ _ _ _ repo_tables_ok Hp Hm) as [_ Hr].
    unfold update_agent_file. rewrite Hr, (remerge _ _ _ _ _ _ Hm). reflexivity.
Qed.

(** X12: a second run of the loop over the files as the first run left
    them reports the same numbers of updated and skipped files. *)
Theorem X12_second_run_same_tally :
  forall (files : list agent_file) (updated skipped : nat),
    fst (main_loop FIXED_MODEL_AGENTS DYNAMIC_MODEL_AGENTS_TOOLS
           (map (rerun_file FIXED_MODEL_AGENTS DYNAMIC_MODEL_AGENTS_TOOLS) files)
           updated skipped)
    = fst (main_loop FIXED_MODEL_AGENTS DYNAMIC_MODEL_AGENTS_TOOLS files
             updated skipped).
Proof.
  intros files updated skipped. rewrite !main_loop_as_map. cbn [fst].
  assert (forall f,
             returned
               (update_agent_file FIXED_MODEL_AGENTS DYNAMIC_MODEL_AGENTS_TOOLS
                  (final_text FIXED_MODEL_AGENTS DYNAMIC_MODEL_AGENTS_TOOLS f)
                  (rel_path f))
             = if excluded f || is_template f
               then returned
                      (update_agent_file FIXED_MODEL_AGENTS
                         DYNAMIC_MODEL_AGENTS_TOOLS (content f) (rel_path f))
               else returned
                      (update_agent_file FIXED_MODEL_AGENTS
                         DYNAMIC_MODEL_AGENTS_TOOLS (content f) (rel_path f)))
    as R.
  { intros f. unfold final_text.
    destruct (excluded f || is_template f); [reflexivity|].
    apply returned_stable. }
  assert (forall f,
             counted_updated FIXED_MODEL_AGENTS DYNAMIC_MODEL_AGENTS_TOOLS
               (rerun_file FIXED_MODEL_AGENTS DYNAMIC_MODEL_AGENTS_TOOLS f)
             = counted_updated FIXED_MODEL_AGENTS DYNAMIC_MODEL_AGENTS_TOOLS f)
    as U.
  { intros f. unfold counted_updated, rerun_file, excluded, is_template.
    cbn [filename rel_path content]. fold (excluded f). fold (is_template f).
    rewrite R. destruct (excluded f || is_template f); reflexivity. }
  assert (forall f,
             counted_skipped FIXED_MODEL_AGENTS DYNAMIC_MODEL_AGENTS_TOOLS
               (rerun_file FIXED_MODEL_AGENTS DYNAMIC_MODEL_AGENTS_TOOLS f)
             = counted_skipped FIXED_MODEL_AGENTS DYNAMIC_MODEL_AGENTS_TOOLS f)
    as K.
  { intros f. unfold counted_skipped, rerun_file, excluded, is_template.
    cbn [filename rel_path content]. fold (excluded f). fold (is_template f).
    rewrite R. destruct (excluded f || is_template f); reflexivity. }
  assert (forall (p : agent_file -> bool) (g : agent_file -> agent_file)
                 (l : list agent_file),
             (forall f, p (g f) = p f) ->
             List.length (filter p (map g l)) = List.length (filter p l)) as L.
  { intros p g l Hpg. induction l as [|f l IH]; [reflexivity|].
    cbn [map filter]. rewrite Hpg. destruct (p f); cbn [List.length]; lia. }
  rewrite (L _ _ _ U), (L _ _ _ K). reflexivity.
Qed.




(** ** Files that the loop leaves alone *)

Lemma main_loop_on_disk_nth (linesep : str) (FIXED : dict config)
    (DYNAMIC : dict str) (files : list agent_file) :
  forall (i : nat) (f : agent_file) (updated skipped : nat),
    nth_error files i = Some f ->
    nth_error (snd (main_loop_on_disk linesep FIXED DYNAMIC files updated skipped)) i
    = Some (if excluded f || is_template f then content f
            else snd (update_agent_file_on_disk linesep FIXED DYNAMIC
                        (content f) (rel_path f))).
Proof.
  induction files as [|g files IH]; intros i f n k Hi.
  - destruct i; discriminate.
  - cbn [main_loop_on_disk]. fold (excluded g). fold (is_template g).
    destruct i as [|i]; cbn [nth_error] in Hi.
    + injection Hi as ->.
      destruct (excluded f); cbn [orb].
      * destruct (main_loop_on_disk linesep FIXED DYNAMIC files n k) as [[n' k'] d].
        reflexivity.
      * destruct (is_template f).
        -- destruct (main_loop_on_disk linesep FIXED DYNAMIC files n (S k))
             as [[n' k'] d].
           reflexivity.
        -- destruct (fst (update_agent_file_on_disk linesep FIXED DYNAMIC
                            (content f) (rel_path f))).
           ++ destruct (main_loop_on_disk linesep FIXED DYNAMIC files (S n) k)
                as [[n' k'] d].
              reflexivity.
           ++ destruct (main_loop_on_disk linesep FIXED DYNAMIC files n (S k))
                as [[n' k'] d].
              reflexivity.
    + destruct (excluded g); cbn [orb].
      * specialize (IH i f n k Hi).
        destruct (main_loop_on_disk linesep FIXED DYNAMIC files n k) as [[n' k'] d].
        exact IH.
      * destruct (is_template g).
        -- specialize (IH i f n (S k) Hi).
           destruct (main_loop_on_disk linesep FIXED DYNAMIC files n (S k))
             as [[n' k'] d].
           exact IH.
        -- destruct (fst (update_agent_file_on_disk linesep FIXED DYNAMIC
                            (content g) (rel_path g))).
           ++ specialize (IH i f (S n) k Hi).
              destruct (main_loop_on_disk linesep FIXED DYNAMIC files (S n) k)
                as [[n' k'] d].
              exact IH.
           ++ specialize (IH i f n (S k) Hi).
              destruct (main_loop_on_disk linesep FIXED DYNAMIC files n (S k))
                as [[n' k'] d].
              exact IH.
Qed.

(** The loop on the characters of the files counts as the loop on the
    texts read from them does, and writes what that loop says is
    written. *)
Lemma main_loop_on_disk_as_read (linesep : str) (FIXED : dict config)
    (DYNAMIC : dict str) (files : list agent_file) :
  forall updated skipped : nat,
    main_loop_on_disk linesep FIXED DYNAMIC files updated skipped
    = (fst (main_loop FIXED DYNAMIC (map as_read files) updated skipped),
       map (fun f => if counted_updated FIXED DYNAMIC (as_read f)
                     then write_text linesep (final_text FIXED DYNAMIC (as_read f))
                     else content f)
         files).
Proof.
  induction files as [|g files IH]; intros n k; [reflexivity|].
  cbn [main_loop_on_disk map main_loop].
  unfold counted_updated at 1, final_text at 1, excluded, is_template.
  change (filename (as_read g)) with (filename g).
  change (rel_path (as_read g)) with (rel_path g).
  change (content (as_read g)) with (read_text (content g)).
  fold (excluded g). fold (is_template g).
  destruct (excluded g); cbn [negb andb orb].
  - rewrite IH.
    destruct (main_loop FIXED DYNAMIC (map as_read files) n k) as [[n' k'] t].
    reflexivity.
  - destruct (is_template g); cbn [negb andb orb].
    + rewrite IH.
      destruct (main_loop FIXED DYNAMIC (map as_read files) n (S k))
        as [[n' k'] t].
      reflexivity.
    + unfold update_agent_file_on_disk. cbn [fst snd].
      destruct (update_agent_file FIXED DYNAMIC (read_text (content g))
                  (rel_path g)) as [| |st out]; cbn [returned file_after];
        rewrite IH.
      * destruct (main_loop FIXED DYNAMIC (map as_read files) n (S k))
          as [[n' k'] t].
        reflexivity.
      * destruct (main_loop FIXED DYNAMIC (map as_read files) n (S k))
          as [[n' k'] t].
        reflexivity.
      * destruct (main_loop FIXED DYNAMIC (map as_read files) (S n) k)
          as [[n' k'] t].
        reflexivity.
Qed.

(** X14: after a run of the loop of [main], whatever the other files
    are, a file holds the very characters it held before when it is no
    markdown file or a README, when it is a template, when the text
    read from it has no header, or when its path is in neither table:
    such a file is never opened for writing, so its line endings stay
    as they were too. *)
Theorem X14_skipped_files_keep_their_characters :
  forall (linesep : str) (FIXED : dict config) (DYNAMIC : dict str)
         (files : list agent_file) (updated skipped i : nat) (f : agent_file),
    nth_error files i = Some f ->
    excluded f = true
    \/ is_template f = true
    \/ (forall a b, read_text (content f) <> opening ++ a ++ closing ++ b)
    \/ (dict_mem (rel_path f) FIXED = false
        /\ dict_mem (rel_path f) DYNAMIC = false) ->
    nth_error
      (snd (main_loop_on_disk linesep FIXED DYNAMIC files updated skipped)) i
    = Some (content f).
Proof.
  intros linesep FIXED DYNAMIC files n k i f Hi H.
  rewrite (main_loop_on_disk_nth _ _ _ _ _ _ n k Hi).
  destruct (excluded f); [reflexivity|].
  destruct (is_template f); [reflexivity|]. cbn [orb].
  destruct H as [H | [H | H]]; [discriminate | discriminate |].
  unfold update_agent_file_on_disk. cbn [snd].
  destruct H as [H | [HF HD]].
  - rewrite skip_when_no_match; [reflexivity|].
    destruct (re_match (read_text (content f))) as [[a b]|] eqn:E; [|reflexivity].
    apply re_match_opening in E. destruct (H _ _ E).
  - unfold update_agent_file.
    destruct (parse_frontmatter (read_text (content f))) as [[fm|] rest];
      [|reflexivity].
    unfold merge_fields.
    rewrite (dict_mem_false _ _ HF), (dict_mem_false _ _ HD). reflexivity.
Qed.

Lemma X14_skipped_files_keep_their_characters_witness :
  nth_error
    (snd (main_loop_on_disk [CR; NL] FIXED_MODEL_AGENTS DYNAMIC_MODEL_AGENTS_TOOLS
            [sample_file; crlf_uncategorized_file; crlf_headerless_file] 0 0)) 1
  = Some crlf_saved_doc
  /\ nth_error
       (snd (main_loop_on_disk [CR; NL] FIXED_MODEL_AGENTS DYNAMIC_MODEL_AGENTS_TOOLS
               [sample_file; crlf_uncategorized_file; crlf_headerless_file] 0 0)) 2
     = Some crlf_body.
Proof.
  split.
  - apply (X14_skipped_files_keep_their_characters [CR; NL] FIXED_MODEL_AGENTS
             DYNAMIC_MODEL_AGENTS_TOOLS
             [sample_file; crlf_uncategorized_file; crlf_headerless_file]
             0 0 1 crlf_uncategorized_file).
    + reflexivity.
    + right. right. right. split; vm_compute; reflexivity.
  - apply (X14_skipped_files_keep_their_characters [CR; NL] FIXED_MODEL_AGENTS
             DYNAMIC_MODEL_AGENTS_TOOLS
             [sample_file; crlf_uncategorized_file; crlf_headerless_file]
             0 0 2 crlf_headerless_file).
    + reflexivity.
    + right. right. left. intros a b E. vm_compute in E. discriminate.
Defined.

(** ** Reading and writing in text mode *)



Lemma read_text_other (c : char) (s : str) :
  (c =? CR) = false -> read_text (c :: s) = c :: read_text s.
Proof. intros H. cbn [read_text]. rewrite H. reflexivity. Qed.

Lemma read_text_CR_NL (s : str) : read_text (CR :: NL :: s) = NL :: read_text s.
Proof. reflexivity. Qed.

Lemma read_text_CR (c : char) (s : str) :
  (c =? NL) = false -> read_text (CR :: c :: s) = NL :: read_text (c :: s).
Proof.
  intros H. change (read_text (CR :: c :: s))
    with (NL :: (if c =? NL then read_text s else read_text (c :: s))).
  rewrite H. reflexivity.
Qed.


(** No carriage return is left in a text that was read. *)
Lemma read_text_has_no_CR (s : str) : contains CR (read_text s) = false.
Proof.
  assert (forall n s, (List.length s <= n)%nat -> contains CR (read_text s) = false)
    as H.
  { intros n. induction n as [|n IH]; intros t Hn.
    - destruct t; [reflexivity | cbn [List.length] in Hn; lia].
    - destruct t as [|c t]; [reflexivity|]. cbn [List.length] in Hn.
      destruct (c =? CR) eqn:Ec.
      + apply N.eqb_eq in Ec; subst c.
        destruct t as [|c' t']; [reflexivity|]. cbn [List.length] in Hn.
        destruct (c' =? NL) eqn:En.
        * apply N.eqb_eq in En; subst c'. rewrite read_text_CR_NL, contains_cons.
          rewrite IH by lia. reflexivity.
        * rewrite (read_text_CR _ _ En), contains_cons.
          rewrite IH by (cbn [List.length]; lia). reflexivity.
      + rewrite (read_text_other _ _ Ec), contains_cons, N.eqb_sym, Ec.
        rewrite IH by lia. reflexivity. }
  apply (H (List.length s)). lia.
Qed.


(** ** The body of a rewritten file *)




(** ** The keys of a rewritten header *)

Lemma reread_keys (fields : dict str) : dict_keys (reread fields) = dict_keys fields.
Proof.
  unfold reread, dict_keys. rewrite map_map. reflexivity.
Qed.

(** C10: a file with a header whose path is in one of the two tables is
    rewritten, and the header that [update_agent_file] writes is the
    marker lines around the lines of the five keys of [order] alone:
    the merged fields have no other key, the second loop of
    [build_frontmatter] adds no line for them, and the header of the
    text that is written, read back, has no key outside [order],
    whatever keys the header of the input had.  The file on disk gets
    that text. *)
Theorem C10_output_keys_in_order :
  forall (content rel : str) (fm : dict str) (rest : str),
    parse_frontmatter content = (Some fm, rest) ->
    dict_mem rel FIXED_MODEL_AGENTS = true
    \/ dict_mem rel DYNAMIC_MODEL_AGENTS_TOOLS = true ->
    exists (s : strategy) (new_fm : dict str) (out : str) (fm' : dict str),
      merge_fields FIXED_MODEL_AGENTS DYNAMIC_MODEL_AGENTS_TOOLS fm rel
      = Some (s, new_fm)
      /\ update_agent_file FIXED_MODEL_AGENTS DYNAMIC_MODEL_AGENTS_TOOLS content rel
         = Ok_written s out
      /\ (forall linesep on_disk,
             read_text on_disk = content ->
             update_agent_file_on_disk linesep FIXED_MODEL_AGENTS
               DYNAMIC_MODEL_AGENTS_TOOLS on_disk rel
             = (true, write_text linesep out))
      /\ out = join NL ([u "---"] ++ ordered_lines new_fm ++ [u "---"])
               ++ [NL] ++ rest
      /\ remaining_lines new_fm = []
      /\ (forall k, In k (dict_keys new_fm) -> In k order)
      /\ parse_frontmatter out = (Some fm', rest)
      /\ dict_keys fm' = dict_keys new_fm
      /\ (forall k, In k (dict_keys fm') -> In k order)
      /\ (forall k, ~ In k order -> dict_get k fm' = None).
Proof.
  intros content rel fm rest Hp Hc.
  destruct (proj2 (merge_fields_some_iff FIXED_MODEL_AGENTS
                     DYNAMIC_MODEL_AGENTS_TOOLS fm rel) Hc)
    as (s & new_fm & Hm).
  destruct (rewritten_output _ _ _ _ _ _ _ _ repo_tables_ok Hp Hm) as [Hu Hr].
  destruct (merged_keys_in_order _ _ _ _ _ _ Hm) as (Hk & Hrem & Hb).
  exists s, new_fm, (build_frontmatter new_fm ++ rest), (reread new_fm).
  split; [exact Hm|]. split; [exact Hu|]. split.
  { intros linesep on_disk E. unfold update_agent_file_on_disk.
    rewrite E, Hu. reflexivity. }
  split; [rewrite Hb, <- !app_assoc; reflexivity|].
  split; [exact Hrem|]. split; [exact Hk|]. split; [exact Hr|].
  split; [apply reread_keys|]. split.
  - intros k. rewrite reread_keys. apply Hk.
  - intros k Hn. destruct (dict_get k (reread new_fm)) as [v|] eqn:E;
      [|reflexivity].
    exfalso. apply Hn, Hk. rewrite <- reread_keys.
    apply dict_mem_In_keys. unfold dict_mem. rewrite E. reflexivity.
Qed.

Lemma C10_output_keys_in_order_witness :
  exists (s : strategy) (new_fm : dict str) (out : str) (fm' : dict str),
    merge_fields FIXED_MODEL_AGENTS DYNAMIC_MODEL_AGENTS_TOOLS sample_fields
      (u "architecture/architect.md")
    = Some (s, new_fm)
    /\ update_agent_file FIXED_MODEL_AGENTS DYNAMIC_MODEL_AGENTS_TOOLS sample_doc
         (u "architecture/architect.md")
       = Ok_written s out
    /\ (forall linesep on_disk,
           read_text on_disk = sample_doc ->
           update_agent_file_on_disk linesep FIXED_MODEL_AGENTS
             DYNAMIC_MODEL_AGENTS_TOOLS on_disk (u "architecture/architect.md")
           = (true, write_text linesep out))
    /\ out = join NL ([u "---"] ++ ordered_lines new_fm ++ [u "---"])
             ++ [NL] ++ sample_body
    /\ remaining_lines new_fm = []
    /\ (forall k, In k (dict_keys new_fm) -> In k order)
    /\ parse_frontmatter out = (Some fm', sample_body)
    /\ dict_keys fm' = dict_keys new_fm
    /\ (forall k, In k (dict_keys fm') -> In k order)
    /\ (forall k, ~ In k order -> dict_get k fm' = None).
Proof.
  apply (C10_output_keys_in_order sample_doc (u "architecture/architect.md")
           sample_fields sample_body).
  - vm_compute. reflexivity.
  - left. vm_compute. reflexivity.
Defined.

(** ** Whitespace around a header line *)

Lemma lstrip_app_class (p : char -> bool) (ws s : str) :
  forallb p ws = true -> lstrip p (ws ++ s) = lstrip p s.
Proof.
  induction ws as [|c ws IH]; [reflexivity|].
  cbn [forallb app lstrip]. intros H. apply andb_true_iff in H as [Hc Hws].
  rewrite Hc. exact (IH Hws).
Qed.

Lemma rstrip_app_class (p : char -> bool) (s ws : str) :
  forallb p ws = true -> rstrip p (s ++ ws) = rstrip p s.
Proof.
  intros H. unfold rstrip. rewrite rev_app_distr, lstrip_app_class; [reflexivity|].
  rewrite forallb_rev. exact H.
Qed.

Lemma lstrip_all (p : char -> bool) (s : str) :
  forallb p s = true -> lstrip p s = [].
Proof.
  intros H. rewrite <- (app_nil_r s). rewrite lstrip_app_class by exact H.
  reflexivity.
Qed.

Lemma strip_app_class_l (p : char -> bool) (ws s : str) :
  forallb p ws = true -> strip p (ws ++ s) = strip p s.
Proof. intros H. unfold strip. rewrite lstrip_app_class by exact H. reflexivity. Qed.

Lemma strip_app_class_r (p : char -> bool) (s ws : str) :
  forallb p ws = true -> strip p (s ++ ws) = strip p s.
Proof.
  intros H. unfold strip. induction s as [|c s IH].
  - cbn [app lstrip]. rewrite (lstrip_all _ _ H). reflexivity.
  - cbn [app lstrip]. destruct (p c); [exact IH|].
    change (c :: s ++ ws) with ((c :: s) ++ ws).
    apply rstrip_app_class, H.
Qed.

Lemma whitespace_no_colon (ws : str) :
  forallb isspace ws = true -> contains COLON ws = false.
Proof.
  induction ws as [|c ws IH]; [reflexivity|].
  cbn [forallb]. intros H. apply andb_true_iff in H as [Hc Hws].
  rewrite contains_cons, (IH Hws), orb_false_r.
  destruct (COLON =? c) eqn:E; [|reflexivity].
  apply N.eqb_eq in E. subst c. discriminate.
Qed.

Lemma partition_app_l (c : char) (ws s : str) :
  contains c ws = false ->
  partition c (ws ++ s)
  = let '(a, m, b) := partition c s in (ws ++ a, m, b).
Proof.
  induction ws as [|x ws IH]; intros H.
  - cbn [app]. destruct (partition c s) as [[a m] b]. reflexivity.
  - rewrite contains_cons in H. apply orb_false_iff in H as [Hx Hws].
    cbn [app partition]. rewrite N.eqb_sym, Hx, (IH Hws).
    destruct (partition c s) as [[a m] b]. reflexivity.
Qed.

Lemma partition_app_r (c : char) (s ws : str) :
  contains c s = true ->
  partition c (s ++ ws)
  = let '(a, m, b) := partition c s in (a, m, b ++ ws).
Proof.
  induction s as [|x s IH]; [discriminate|].
  rewrite contains_cons. cbn [app partition]. intros H.
  destruct (x =? c) eqn:E; [reflexivity|].
  rewrite N.eqb_sym, E in H. cbn [orb] in H. rewrite (IH H).
  destruct (partition c s) as [[a m] b]. reflexivity.
Qed.

(** X15: whitespace before and after a header line plays no part in what
    the line sets: an indented line sets the same key to the same value
    as the line without the indentation. *)
Theorem X15_line_whitespace_ignored :
  forall (fm : dict str) (before line after : str),
    forallb isspace before = true ->
    forallb isspace after = true ->
    parse_line fm (before ++ line ++ after) = parse_line fm line.
Proof.
  intros fm before line after Hb Ha.
  pose proof (whitespace_no_colon _ Hb) as Cb.
  pose proof (whitespace_no_colon _ Ha) as Ca.
  unfold parse_line. rewrite !contains_app, Cb, Ca, orb_false_r. cbn [orb].
  destruct (contains COLON line) eqn:E; [|reflexivity].
  rewrite (partition_app_l _ _ _ Cb), (partition_app_r _ _ _ E).
  destruct (partition COLON line) as [[key m] value].
  unfold strip_ws, parse_value, strip_ws.
  rewrite (strip_app_class_l _ _ _ Hb), (strip_app_class_r _ _ _ Ha).
  reflexivity.
Qed.

Lemma X15_line_whitespace_ignored_witness :
  parse_line [(u "model", u "opus")]
    (u "  " ++ u "model: haiku" ++ [SPACE; 9])
  = parse_line [(u "model", u "opus")] (u "model: haiku").
Proof.
  apply (X15_line_whitespace_ignored [(u "model", u "opus")]
           (u "  ") (u "model: haiku") [SPACE; 9]).
  - reflexivity.
  - reflexivity.
Defined.
